(** * MassContaminant: the [Ame] class of [mass.py]

    A shallow embedding of the expression evaluator and of the mass
    combination of [src/mass.py], and the properties stated about them.

    Conventions of the embedding.
    - A Python [str] is a [string]; the two regular expressions of
      [get_number_symbol] only ever match ASCII characters, so every other
      character (whatever its encoding) is a separator for both scans.
    - A Python [int] is a [Z].
    - A Python [float] is a real number [R]: arithmetic on masses is exact.
      The order of the additions and multiplications of the source is kept.
    - An exception is a value of [exn]; a computation that may raise has
      type [result A]; a computation that may also print has type [io A].
    - The [pandas] table is a list of rows; its index is the default range
      index, so a row label is the position of the row. *)

From Stdlib Require Import Reals Lra Ascii String.
From stdpp Require Import gmap strings list.

Local Open Scope string_scope.
Local Open Scope Z_scope.

(** ** Exceptions and printing *)

(** The key of a [KeyError]: a dictionary key or a row label. *)
Inductive pykey : Type :=
| KStr (s : string)
| KInt (n : nat).

Inductive exn : Type :=
| KeyError (key : pykey)
| IndexError.

Inductive result (A : Type) : Type :=
| Ok (a : A)
| Raise (e : exn).
Arguments Ok {A} a.
Arguments Raise {A} e.

#[global] Instance result_ret : MRet result := @Ok.
#[global] Instance result_bind : MBind result :=
  λ A B f m, match m with Ok a => f a | Raise e => Raise e end.

(** What has been printed so far, and how the computation ended. *)
Definition io (A : Type) : Type := list string * result A.

#[global] Instance io_ret : MRet io := λ A a, ([], Ok a).
#[global] Instance io_bind : MBind io :=
  λ A B f m,
    match m with
    | (out, Ok a) => let '(out', r) := f a in ((out ++ out')%list, r)
    | (out, Raise e) => (out, Raise e)
    end.

Definition lift {A} (r : result A) : io A := ([], r).
Definition print (line : string) : io unit := ([line], Ok tt).

(** [l[i]] for a non-negative [i]. *)
Definition index {A} (l : list A) (i : nat) : result A :=
  match l !! i with
  | Some x => Ok x
  | None => Raise IndexError
  end.

(** [d[k]] on a dictionary with string keys. *)
Definition getitem {V} (d : gmap string V) (k : string) : result V :=
  match d !! k with
  | Some v => Ok v
  | None => Raise (KeyError (KStr k))
  end.

(** [range(start, stop, step)] for a positive [step]: the number of items
    is [ceil((stop - start) / step)], or none when [stop <= start]. *)
Definition py_range (start stop step : nat) : list nat :=
  (λ k, start + k * step)%nat <$> seq 0 ((stop - start + (step - 1)) / step)%nat.

(** [sum(l)] on integers. *)
Definition py_sum (l : list Z) : Z := foldr Z.add 0 l.

(** [''.join(l)]. *)
Definition join (l : list string) : string := foldr String.append EmptyString l.

(** [c in s] for a one-character [c]. *)
Fixpoint char_in (c : ascii) (s : string) : bool :=
  match s with
  | EmptyString => false
  | String c' s' => if Ascii.eqb c c' then true else char_in c s'
  end.

(** ** The periodic symbol table *)

Definition symbols_items : list (string * Z) :=
  [("n", 0); ("H", 1); ("He", 2); ("Li", 3); ("Be", 4); ("B", 5); ("C", 6);
   ("N", 7); ("O", 8); ("F", 9); ("Ne", 10); ("Na", 11); ("Mg", 12);
   ("Al", 13); ("Si", 14); ("P", 15); ("S", 16); ("Cl", 17); ("Ar", 18);
   ("K", 19); ("Ca", 20); ("Sc", 21); ("Ti", 22); ("V", 23); ("Cr", 24);
   ("Mn", 25); ("Fe", 26); ("Co", 27); ("Ni", 28); ("Cu", 29); ("Zn", 30);
   ("Ga", 31); ("Ge", 32); ("As", 33); ("Se", 34); ("Br", 35); ("Kr", 36);
   ("Rb", 37); ("Sr", 38); ("Y", 39); ("Zr", 40); ("Nb", 41); ("Mo", 42);
   ("Tc", 43); ("Ru", 44); ("Rh", 45); ("Pd", 46); ("Ag", 47); ("Cd", 48);
   ("In", 49); ("Sn", 50); ("Sb", 51); ("Te", 52); ("I", 53); ("Xe", 54);
   ("Cs", 55); ("Ba", 56); ("La", 57); ("Ce", 58); ("Pr", 59); ("Nd", 60);
   ("Pm", 61); ("Sm", 62); ("Eu", 63); ("Gd", 64); ("Tb", 65); ("Dy", 66);
   ("Ho", 67); ("Er", 68); ("Tm", 69); ("Yb", 70); ("Lu", 71); ("Hf", 72);
   ("Ta", 73); ("W", 74); ("Re", 75); ("Os", 76); ("Ir", 77); ("Pt", 78);
   ("Au", 79); ("Hg", 80); ("Tl", 81); ("Pb", 82); ("Bi", 83); ("Po", 84);
   ("At", 85); ("Rn", 86); ("Fr", 87); ("Ra", 88); ("Ac", 89); ("Th", 90);
   ("Pa", 91); ("U", 92); ("Np", 93); ("Pu", 94); ("Am", 95); ("Cm", 96);
   ("Bk", 97); ("Cf", 98); ("Es", 99); ("Fm", 100); ("Md", 101);
   ("No", 102); ("Lr", 103); ("Rf", 104); ("Db", 105); ("Sg", 106);
   ("Bh", 107); ("Hs", 108); ("Mt", 109); ("Ds", 110); ("Rg", 111);
   ("Cn", 112); ("Ed", 113); ("Fl", 114); ("Ef", 115); ("Lv", 116);
   ("Eh", 117); ("Ei", 118)].

(** [Ame.symbols]; the keys of the literal are pairwise distinct. *)
Definition symbols : gmap string Z := list_to_map symbols_items.

(** ** Scanning an expression: [get_number_symbol] *)

Definition is_digit (c : ascii) : bool :=
  ((48 <=? N_of_ascii c) && (N_of_ascii c <=? 57))%N.
Definition is_upper (c : ascii) : bool :=
  ((65 <=? N_of_ascii c) && (N_of_ascii c <=? 90))%N.
Definition is_lower (c : ascii) : bool :=
  ((97 <=? N_of_ascii c) && (N_of_ascii c <=? 122))%N.

(** [re.findall('[0-9][0-9][0-9]|[0-9][0-9]|[0-9]', s)]: at each position
    the alternatives are tried in order, so three digits are taken when
    there are three, else two, else one; the scan resumes after the match,
    or one character further when nothing matches. *)
Fixpoint findall_digits (s : string) : list string :=
  match s with
  | EmptyString => []
  | String c1 s1 =>
    if is_digit c1 then
      match s1 with
      | String c2 s2 =>
        if is_digit c2 then
          match s2 with
          | String c3 s3 =>
            if is_digit c3
            then String c1 (String c2 (String c3 EmptyString)) :: findall_digits s3
            else String c1 (String c2 EmptyString) :: findall_digits s2
          | EmptyString => String c1 (String c2 EmptyString) :: findall_digits s2
          end
        else String c1 EmptyString :: findall_digits s1
      | EmptyString => String c1 EmptyString :: findall_digits s1
      end
    else findall_digits s1
  end.

(** [re.findall('[A-Z][a-z]|[A-Z]', s)]. *)
Fixpoint findall_symbols (s : string) : list string :=
  match s with
  | EmptyString => []
  | String c1 s1 =>
    if is_upper c1 then
      match s1 with
      | String c2 s2 =>
        if is_lower c2
        then String c1 (String c2 EmptyString) :: findall_symbols s2
        else String c1 EmptyString :: findall_symbols s1
      | EmptyString => String c1 EmptyString :: findall_symbols s1
      end
    else findall_symbols s1
  end.

(** [int(s)] on a string of decimal digits. *)
Fixpoint int_from (acc : Z) (s : string) : Z :=
  match s with
  | EmptyString => acc
  | String c s' => int_from (10 * acc + (Z.of_N (N_of_ascii c) - 48)) s'
  end.
Definition py_int (s : string) : Z := int_from 0 s.

Definition get_number_symbol (item : string) : list Z * list string :=
  let numbers := py_int <$> findall_digits item in
  let symbols := findall_symbols item in
  (numbers, symbols).

(** ** [get_molecule_info] and [evaluate_expr] *)

Definition get_molecule_info (expr : string)
  : result (list Z * list Z * list string) :=
  if negb (char_in ":" expr) then Ok ([], [], [])
  else
    let '(tmp_nbrs, sym) := get_number_symbol expr in
    if (length sym <? length tmp_nbrs)%nat then
      multi ← mapM (index tmp_nbrs) (py_range 0 (length tmp_nbrs) 2);
      a ← mapM (index tmp_nbrs) (py_range 1 (length tmp_nbrs + 1) 2);
      Ok (multi, a, sym)
    else
      Ok (replicate (length tmp_nbrs) 1, tmp_nbrs, sym).

(** The type of what [evaluate_expr] returns: with [flag] the combined
    view (joined symbols and three sums), without it the four lists
    (symbols, multiplicities, mass numbers, proton numbers). *)
Definition eval_ty (flag : bool) : Type :=
  if flag then (string * Z * Z * Z)%type
  else (list string * list Z * list Z * list Z)%type.

Definition evaluate_expr (expr : string) (flag : bool) : result (eval_ty flag) :=
  '(m, a, sym) ←
    (if char_in ":" expr then get_molecule_info expr
     else
       let '(a, sym) := get_number_symbol expr in
       Ok (replicate (length a) 1, a, sym));
  z ← mapM (getitem symbols) sym;
  match flag return result (eval_ty flag) with
  | true => Ok (join sym, py_sum m, py_sum a, py_sum z)
  | false => Ok (sym, m, a, z)
  end.

(** ** The table *)

(** One row of [self.df] after [load_table] and [add_charge_col]. *)
Record row : Type := Row {
  col_N : Z;
  col_Z : Z;
  col_A : Z;
  col_EL : string;
  col_ME : R;
  col_MEunc : R;
  col_ame_tot : R;
  col_amunc : R;
  col_charge : Z
}.

Definition DataFrame : Type := list row.

(** [cond1 & cond2] of [get_ame_mass], on one row. *)
Definition el_a_cond (el : string) (a : Z) (r : row) : bool :=
  String.eqb (col_EL r) el && (col_A r =? a).

(** The labels of the rows that satisfy [cond], in table order, the first
    row of [df] having label [start]. *)
Fixpoint labels_from (start : nat) (cond : row → bool) (df : DataFrame) : list nat :=
  match df with
  | [] => []
  | r :: df' =>
    if cond r then start :: labels_from (S start) cond df'
    else labels_from (S start) cond df'
  end.

(** [df[cond].index.tolist()]. *)
Definition index_tolist (cond : row → bool) (df : DataFrame) : list nat :=
  labels_from 0 cond df.

(** [df.at[label, column]]: the row is fetched here, the column is read
    from it by the caller. *)
Definition at_label (df : DataFrame) (label : nat) : result row :=
  match df !! label with
  | Some r => Ok r
  | None => Raise (KeyError (KInt label))
  end.

(** ** [get_ame_mass] *)

(** One iteration of the first loop: the labels of the rows that match
    constituent [i]. *)
Definition lookup_rows_body (df : DataFrame) (label : list string)
    (atomic_number : list Z) (i : nat) : result (list nat) :=
  l ← index label i;
  a ← index atomic_number i;
  Ok (index_tolist (el_a_cond l a) df).

(** The first loop: one list of row labels per constituent. *)
Definition lookup_rows (df : DataFrame) (label : list string)
    (atomic_number : list Z) : result (list (list nat)) :=
  mapM (lookup_rows_body df label atomic_number) (py_range 0 (length label) 1).

(** One iteration of the second loop on the pair [(ame_mass, ame_unc)]. *)
Definition accumulate_step (df : DataFrame) (multiplicity : list Z)
    (idx : list (list nat)) (acc : R * R) (i : nat) : result (R * R) :=
  mul ← index multiplicity i;
  labels ← index idx i;
  first ← index labels 0;
  r ← at_label df first;
  let part := col_ame_tot r in
  let unc_part := col_amunc r in
  Ok (fst acc + IZR mul * part, snd acc + IZR mul * unc_part ^ 2)%R.

(** A [for] loop with an accumulator, stopped by the first exception. *)
Fixpoint for_loop {A St} (body : St → A → result St) (l : list A) (s : St)
  : result St :=
  match l with
  | [] => Ok s
  | x :: l' => s' ← body s x; for_loop body l' s'
  end.

Definition not_found_message : string :=
  "Element or Atomic number not found in database".

(** [self.idx] is emptied at the start of every call, so it is a local
    value here. *)
Definition get_ame_mass (df : DataFrame) (el_expr : string)
  : io (string * R * R * Z * Z * Z * Z) :=
  let ame_mass := 0%R in
  let ame_unc := 0%R in
  let q := 1 in
  '(label, multiplicity, atomic_number, z) ← lift (evaluate_expr el_expr false);
  idx ← lift (lookup_rows df label atomic_number);
  '(ame_mass, ame_unc) ←
    (match idx with
     | [] => _ ← print not_found_message; mret (ame_mass, ame_unc)
     | _ :: _ =>
       lift (for_loop (accumulate_step df multiplicity idx)
                      (py_range 0 (length idx) 1) (ame_mass, ame_unc))
     end);
  let sym := join label in
  let a := py_sum (zip_with Z.mul atomic_number multiplicity) in
  let z := py_sum z in
  let n := a - z in
  mret (sym, ame_mass, sqrt ame_unc, a, z, n, q).

(** ** Mass excess and isomers *)

Definition scale : R := 931494.061%R.

Definition mass_excess (atomic_mass unc_atomic_mass mass_number : R) : R * R :=
  let mass_excess := ((atomic_mass * 1e-6 - mass_number) * scale)%R in
  let mass_excess_unc := ((unc_atomic_mass * 1e-6) * scale)%R in
  (mass_excess, mass_excess_unc).

(** The back-conversion of [calc_isomer_mass]: the mass value of a mass
    excess [me] at mass number [a]. *)
Definition isomer_amass (me a : R) : R := ((me / scale + a) * 1e6)%R.

(** The one row of the frame that [calc_isomer_mass] returns. *)
Definition calc_isomer_mass (df : DataFrame) (el_id : string) (ex_erg : R)
  : result row :=
  let q := 1 in
  '(sym, m, a, z) ← evaluate_expr el_id true;
  let n := a - z in
  i ← index (index_tolist (el_a_cond sym a) df) 0;
  r ← at_label df i;
  let me := (col_ME r + ex_erg)%R in
  let amass := isomer_amass me (IZR a) in
  Ok (Row n z a (sym ++ "^m") me 0 amass 0 q).

(** The stored row of the first table row matching [(el, a)]: what
    [self.df.at[self.idx[i][0], ...]] reads from, when there is one. *)
Definition first_row (df : DataFrame) (el : string) (a : Z) : option row :=
  label ← head (index_tolist (el_a_cond el a) df); df !! label.

(** The if/else at the head of [evaluate_expr], on its own. *)
Definition decompose (expr : string) : result (list Z * list Z * list string) :=
  if char_in ":" expr then get_molecule_info expr
  else
    let '(a, sym) := get_number_symbol expr in
    Ok (replicate (length a) 1, a, sym).

(** The two accumulated sums of [get_ame_mass] for resolved rows, in the
    order of the loop. *)
Definition accumulate_rows (multiplicity : list Z) (rows : list row) (acc : R * R)
  : R * R :=
  foldl (λ acc h, h acc) acc
        (zip_with (λ mul r acc,
                     (fst acc + IZR mul * col_ame_tot r,
                      snd acc + IZR mul * col_amunc r ^ 2)%R)
                  multiplicity rows).

(** The sum of a list of reals. *)
Definition Rsum (l : list R) : R := foldr Rplus 0%R l.

(** ** Notions used in the statements *)

(** Every constituent [(label[i], atomic_number[i])] has the row
    [rows[i]] as its first match. *)
Definition resolved (df : DataFrame) (label : list string) (atomic_number : list Z)
    (rows : list row) : Prop :=
  (length label ≤ length atomic_number)%nat ∧
  Forall2 (λ lx r, first_row df lx.1 lx.2 = Some r) (zip label atomic_number) rows.

(** A string of decimal digits. *)
Fixpoint all_digits (s : string) : bool :=
  match s with
  | EmptyString => true
  | String c s' => is_digit c && all_digits s'
  end.

(** A key of the table as the scans see it. *)
Definition scanned_as_symbol (k : string) : Prop :=
  findall_symbols k = [k] ∧ findall_digits k = [] ∧ char_in ":" k = false ∧
  match k with String c _ => is_digit c = false | EmptyString => False end.

#[local] Instance scanned_as_symbol_dec k : Decision (scanned_as_symbol k).
Proof. unfold scanned_as_symbol. destruct k; apply _. Defined.

(** A few rows in the layout of the table. *)
Definition row_H1 : row :=
  Row 0 1 1 "H" 7288.971064 0.000013 1007825.031898 0.000014 1.
Definition row_O16 : row :=
  Row 8 8 16 "O" (-4737.00217) 0.00030 15994914.61926 0.00032 1.
Definition row_n : row :=
  Row 1 0 1 "n" 8071.31806 0.00044 1008664.91590 0.00047 1.
Definition small_table : DataFrame := [row_n; row_H1; row_O16].

(** ** Three statements that the code does not satisfy as they stand *)

(** C6, the claim as stated: every expression with a symbol token that is
    not a key of the table raises the unknown-symbol error. *)
Definition unknown_symbol_claim : Prop :=
  ∀ (expr : string) (flag : bool) (s : string),
    s ∈ findall_symbols expr → symbols !! s = None →
    ∃ key, evaluate_expr expr flag = Raise (KeyError key).

(** C8, the claim as stated: with a colon and more numbers than symbols
    the parse returns, the multiplicities being the numbers at even places
    and the mass numbers those at odd places, in equal number. *)
Definition interleaved_claim : Prop :=
  ∀ (expr : string) (tmp_nbrs : list Z) (sym : list string),
    char_in ":" expr = true →
    get_number_symbol expr = (tmp_nbrs, sym) →
    (length sym < length tmp_nbrs)%nat →
    ∃ multi a,
      get_molecule_info expr = Ok (multi, a, sym) ∧
      length multi = length a ∧
      (∀ i, multi !! i = tmp_nbrs !! (2 * i)%nat) ∧
      (∀ i, a !! i = tmp_nbrs !! (2 * i + 1)%nat).

(** C9, the claim as stated: a known symbol on its own evaluates to one
    constituent, with multiplicity 1 and some mass number (zero, or a
    marker of its absence). *)
Definition symbol_alone_claim : Prop :=
  ∀ (el : string) (p : Z),
    symbols !! el = Some p →
    ∃ a0 z, evaluate_expr el false = Ok ([el], [1], [a0], z).

(** ** The other queries of the class *)

(** [self.me] and [self.me_unc]: the electron mass and its uncertainty. *)
Definition me : R := 548.57990946%R.
Definition me_unc : R := 0.00000022%R.

Definition get_extra_mass (df : DataFrame) (expression : string) : io R :=
  '(_, ame_mass, _, _, _, _, _) ← get_ame_mass df expression;
  mret ame_mass.

Definition get_ion_mass (df : DataFrame) (el_symbol : string) (charge : Z)
  : io (R * R) :=
  '(el_expr, mass_atom, mass_atom_unc, _, _, _, _) ← get_ame_mass df el_symbol;
  let ion_mass := (mass_atom - IZR charge * me)%R in
  let unc_ion_mass := sqrt (mass_atom_unc ^ 2 + (IZR charge * me_unc) ^ 2) in
  mret (ion_mass, unc_ion_mass).

(** [add_entry_table] replaces [self.df]: the value returned here is the
    new table; when the call raises, [self.df] is the one it was. *)
Definition add_entry_table (df : DataFrame) (expr : string) : io DataFrame :=
  '(el, amass, amunc, a, z, n, q) ← get_ame_mass df expr;
  let '(mexcess, meunc) := mass_excess amass amunc (IZR a) in
  let cols := Row n z a expr mexcess meunc amass amunc q in
  mret (df ++ [cols])%list.

Definition no_isobars_message : string :=
  "No isobars found! Please check the atomic Number".

(** One iteration of the loop of [get_isobars]: the three cells of line
    [i] of the array. *)
Definition get_isobars_body (df : DataFrame) (idx : list nat) (i : nat)
  : result (string * R * R) :=
  label ← index idx i;
  r ← at_label df label;
  Ok (col_EL r, col_ame_tot r, col_amunc r).

(** The array returned has one line per label of [idx], filled in order. *)
Definition get_isobars (df : DataFrame) (atomic_number : Z)
  : io (list (string * R * R)) :=
  let idx := index_tolist (λ r, col_A r =? atomic_number) df in
  match idx with
  | [] => _ ← print no_isobars_message; mret []
  | _ :: _ => lift (mapM (get_isobars_body df idx) (py_range 0 (length idx) 1))
  end.

(** A string that the symbol scan can return. *)
Definition symbol_shaped (t : string) : Prop :=
  ∃ u, is_upper u = true ∧
       (t = String u EmptyString ∨
        ∃ l, is_lower l = true ∧ t = String u (String l EmptyString)).

(** * Properties *)

(** ** The monads *)

Lemma bind_Ok {A B} (f : A → result B) (a : A) : (Ok a ≫= f) = f a.
Proof. reflexivity. Qed.

Lemma bind_Raise {A B} (f : A → result B) (e : exn) : (Raise e ≫= f) = Raise e.
Proof. reflexivity. Qed.

Lemma bind_Ok_inv {A B} (f : A → result B) (m : result A) (b : B) :
  (m ≫= f) = Ok b → ∃ a, m = Ok a ∧ f a = Ok b.
Proof. destruct m as [a|e]; [eauto | discriminate]. Qed.

Lemma mapM_nil {A B} (f : A → result B) : mapM f [] = Ok [].
Proof. reflexivity. Qed.

Lemma mapM_cons {A B} (f : A → result B) (x : A) (l : list A) :
  mapM f (x :: l) = (y ← f x; k ← mapM f l; Ok (y :: k)).
Proof. reflexivity. Qed.

Lemma index_Ok {A} (l : list A) (i : nat) (x : A) :
  l !! i = Some x → index l i = Ok x.
Proof. unfold index. intros ->. reflexivity. Qed.

Lemma index_Raise {A} (l : list A) (i : nat) :
  (length l ≤ i)%nat → index l i = Raise IndexError.
Proof. intros H. unfold index. rewrite (lookup_ge_None_2 l i H). reflexivity. Qed.

Lemma index_cases {A} (l : list A) (i : nat) :
  (∃ x, l !! i = Some x ∧ index l i = Ok x) ∨ index l i = Raise IndexError.
Proof. unfold index. destruct (l !! i); eauto. Qed.

(** A subscript at the head of a bind: it yields [x], and the bind goes
    on, or the whole is an [IndexError], which [tac] is to settle. *)
Ltac index_case l i x H tac :=
  destruct (index_cases l i) as [(x & H & ->) | -> ];
  [rewrite bind_Ok | solve [tac]].

(** [mapM] succeeds on [seq k n] with the list [ys] as soon as each index
    yields the element of [ys] at its place. *)
Lemma mapM_seq_Ok {B} (f : nat → result B) (ys : list B) (k : nat) :
  (∀ i y, ys !! i = Some y → f (k + i)%nat = Ok y) →
  mapM f (seq k (length ys)) = Ok ys.
Proof.
  revert k. induction ys as [|y ys IH]; intros k Hf; [reflexivity|].
  cbn [length seq]. rewrite mapM_cons.
  rewrite <- (Nat.add_0_r k) at 1. rewrite (Hf 0%nat y eq_refl), bind_Ok.
  rewrite (IH (S k)); [reflexivity|].
  intros i y' Hi. replace (S k + i)%nat with (k + S i)%nat by lia.
  apply Hf. exact Hi.
Qed.

(** When a body can only raise [IndexError], so can the comprehension. *)
Lemma mapM_IndexError {A B} (f : A → result B) (l : list A) (x : A) :
  (∀ y, (∃ b, f y = Ok b) ∨ f y = Raise IndexError) →
  x ∈ l → f x = Raise IndexError → mapM f l = Raise IndexError.
Proof.
  intros Hf Hx Hfx. induction l as [|y l IH]; [inversion Hx|].
  rewrite mapM_cons. destruct (Hf y) as [[b Hb]|Hb]; rewrite Hb; [|reflexivity].
  rewrite bind_Ok. apply elem_of_cons in Hx as [->|Hx]; [congruence|].
  rewrite (IH Hx). reflexivity.
Qed.

Lemma mapM_Ok_Forall2 {A B} (f : A → result B) (l : list A) (k : list B) :
  mapM f l = Ok k → Forall2 (λ x y, f x = Ok y) l k.
Proof.
  revert k. induction l as [|x l IH]; intros k.
  - rewrite mapM_nil. intros [= <-]. constructor.
  - rewrite mapM_cons. intros H.
    apply bind_Ok_inv in H as (y & Hy & H).
    apply bind_Ok_inv in H as (k' & Hk' & [= <-]).
    constructor; auto.
Qed.

(** ** Ranges *)

Lemma py_range_1 (n : nat) : py_range 0 n 1 = seq 0 n.
Proof.
  unfold py_range. cbn [Nat.sub]. rewrite Nat.sub_0_r, Nat.add_0_r, Nat.div_1_r.
  rewrite <- (list_fmap_id (seq 0 n)) at 2. apply list_fmap_ext.
  intros _ k _. cbn. lia.
Qed.

Lemma length_py_range (start stop step : nat) :
  length (py_range start stop step)
  = ((stop - start + (step - 1)) / step)%nat.
Proof. unfold py_range. rewrite length_fmap, length_seq. reflexivity. Qed.

Lemma lookup_py_range (start stop step j : nat) :
  (j < (stop - start + (step - 1)) / step)%nat →
  py_range start stop step !! j = Some (start + j * step)%nat.
Proof.
  intros Hj. unfold py_range. rewrite list_lookup_fmap.
  rewrite lookup_seq_lt by exact Hj. reflexivity.
Qed.

(** ** Loops *)

Lemma for_loop_seq_Ok {St} (body : St → nat → result St) (g : list (St → St))
    (k : nat) (s : St) :
  (∀ i h s', g !! i = Some h → body s' (k + i)%nat = Ok (h s')) →
  for_loop body (seq k (length g)) s = Ok (foldl (λ s h, h s) s g).
Proof.
  revert k s. induction g as [|h g IH]; intros k s Hb; [reflexivity|].
  cbn [length seq for_loop foldl].
  rewrite <- (Nat.add_0_r k) at 1. rewrite (Hb 0%nat h s eq_refl), bind_Ok.
  apply IH. intros i h' s' Hi. replace (S k + i)%nat with (k + S i)%nat by lia.
  apply Hb. exact Hi.
Qed.

Lemma for_loop_IndexError {A St} (body : St → A → result St) (l : list A)
    (x : A) (s : St) :
  (∀ s y, (∃ s', body s y = Ok s') ∨ body s y = Raise IndexError) →
  x ∈ l → (∀ s, body s x = Raise IndexError) →
  for_loop body l s = Raise IndexError.
Proof.
  intros Hb Hx Hbx. revert s. induction l as [|y l IH]; intros s; [inversion Hx|].
  cbn [for_loop]. destruct (Hb s y) as [[s' Hs']|Hs']; rewrite Hs'; [|reflexivity].
  rewrite bind_Ok. apply elem_of_cons in Hx as [->|Hx].
  - rewrite Hbx in Hs'. discriminate.
  - apply IH. exact Hx.
Qed.

(** ** The table *)

Lemma labels_from_bounds (k : nat) (cond : row → bool) (df : DataFrame) (j : nat) :
  j ∈ labels_from k cond df → (k ≤ j < k + length df)%nat.
Proof.
  revert k. induction df as [|r df IH]; intros k; cbn [labels_from length].
  - intros H. inversion H.
  - destruct (cond r).
    + intros [->|H]%elem_of_cons; [lia|]. apply IH in H. lia.
    + intros H. apply IH in H. lia.
Qed.

Lemma labels_from_head_find (k : nat) (cond : row → bool) (df : DataFrame) :
  (head (labels_from k cond df) ≫= λ j, df !! (j - k)%nat) = List.find cond df.
Proof.
  revert k. induction df as [|r df IH]; intros k; cbn [labels_from List.find].
  - reflexivity.
  - destruct (cond r).
    + cbn. rewrite Nat.sub_diag. reflexivity.
    + rewrite <- (IH (S k)).
      destruct (head (labels_from (S k) cond df)) as [j|] eqn:Hj; [|reflexivity].
      cbn. apply head_Some_elem_of, labels_from_bounds in Hj.
      replace (j - k)%nat with (S (j - S k)) by lia. reflexivity.
Qed.

(** [first_row] is the first row of the table, in table order, whose
    element and mass number are the ones asked for. *)
Lemma first_row_find (df : DataFrame) (el : string) (a : Z) :
  first_row df el a = List.find (el_a_cond el a) df.
Proof.
  unfold first_row, index_tolist. rewrite <- (labels_from_head_find 0).
  destruct (head _); cbn; [rewrite Nat.sub_0_r|]; reflexivity.
Qed.

Lemma first_row_label (df : DataFrame) (el : string) (a : Z) (r : row) :
  first_row df el a = Some r →
  ∃ j rest, index_tolist (el_a_cond el a) df = j :: rest ∧ df !! j = Some r.
Proof.
  unfold first_row. destruct (index_tolist _ df) as [|j rest]; [discriminate|].
  cbn. eauto.
Qed.

Lemma at_label_index_tolist (cond : row → bool) (df : DataFrame) (j : nat) :
  j ∈ index_tolist cond df → ∃ r, at_label df j = Ok r.
Proof.
  intros H%labels_from_bounds. unfold at_label.
  destruct (df !! j) as [r|] eqn:Hr; [eauto|].
  apply lookup_ge_None_1 in Hr. lia.
Qed.

Section table.
Context (df : DataFrame).

Lemma resolved_length (label : list string) (a : list Z) (rows : list row) :
  resolved df label a rows → length rows = length label.
Proof.
  intros [Hlen H]. apply Forall2_length in H. rewrite length_zip_with in H. lia.
Qed.

Lemma lookup_rows_body_cases (label : list string) (a : list Z) (i : nat) :
  (∃ labels, lookup_rows_body df label a i = Ok labels) ∨
  lookup_rows_body df label a i = Raise IndexError.
Proof.
  unfold lookup_rows_body.
  index_case label i l Hl ltac:(by right).
  index_case a i x Hx ltac:(by right).
  left. eauto.
Qed.

Lemma lookup_rows_Ok (label : list string) (a : list Z) :
  (length label ≤ length a)%nat →
  lookup_rows df label a
  = Ok (zip_with (λ l x, index_tolist (el_a_cond l x) df) label a).
Proof.
  intros Hlen. unfold lookup_rows. rewrite py_range_1.
  set (ys := zip_with _ label a).
  replace (length label) with (length ys)
    by (unfold ys; rewrite length_zip_with; lia).
  apply mapM_seq_Ok. intros i y Hy. cbn [Nat.add].
  apply lookup_zip_with_Some in Hy as (l & x & Hy & Hl & Hx). subst y.
  unfold lookup_rows_body.
  rewrite (index_Ok _ _ _ Hl), bind_Ok, (index_Ok _ _ _ Hx), bind_Ok.
  reflexivity.
Qed.

(** More symbols than mass numbers: the first loop reads past the end of
    [atomic_number]. *)
Lemma lookup_rows_Raise (label : list string) (a : list Z) :
  (length a < length label)%nat → lookup_rows df label a = Raise IndexError.
Proof.
  intros Hlt. unfold lookup_rows. rewrite py_range_1.
  apply (mapM_IndexError _ _ (length a)).
  - intros i. apply lookup_rows_body_cases.
  - apply elem_of_seq. lia.
  - unfold lookup_rows_body.
    index_case label (length a) l Hl ltac:(reflexivity).
    rewrite index_Raise by lia. reflexivity.
Qed.

Lemma lookup_rows_Ok_inv (label : list string) (a : list Z) (idx : list (list nat)) :
  lookup_rows df label a = Ok idx →
  (length label ≤ length a)%nat ∧
  idx = zip_with (λ l x, index_tolist (el_a_cond l x) df) label a.
Proof.
  intros H. destruct (decide (length label ≤ length a)%nat) as [Hle|Hgt].
  - rewrite (lookup_rows_Ok _ _ Hle) in H. split; congruence.
  - rewrite lookup_rows_Raise in H by lia. discriminate.
Qed.

Lemma accumulate_Ok (label : list string) (m a : list Z) (rows : list row)
    (acc : R * R) :
  resolved df label a rows → (length a ≤ length m)%nat →
  let idx := zip_with (λ l x, index_tolist (el_a_cond l x) df) label a in
  for_loop (accumulate_step df m idx) (py_range 0 (length idx) 1) acc
  = Ok (accumulate_rows m rows acc).
Proof.
  intros Hres Hm idx. pose proof (resolved_length _ _ _ Hres) as Hrows.
  destruct Hres as [Hlen Hres]. rewrite py_range_1. unfold accumulate_rows.
  set (g := zip_with _ m rows).
  replace (length idx) with (length g)
    by (unfold idx, g; rewrite !length_zip_with; lia).
  apply for_loop_seq_Ok. intros i h s Hh. cbn [Nat.add].
  apply lookup_zip_with_Some in Hh as (mul & r & Hh & Hmul & Hr). subst h.
  destruct (Forall2_lookup_r _ _ _ _ _ Hres Hr) as ([l x] & Hlx & Hfirst).
  cbn in Hfirst. apply first_row_label in Hfirst as (j & rest & Hj & Hdf).
  unfold accumulate_step.
  rewrite (index_Ok _ _ _ Hmul), bind_Ok.
  assert (idx !! i = Some (j :: rest)) as Hidx.
  { unfold idx. apply lookup_zip_with_Some.
    apply lookup_zip_with_Some in Hlx as (l' & x' & Heq & Hl & Hx).
    injection Heq as <- <-.
    exists l, x. rewrite Hj. auto. }
  rewrite (index_Ok _ _ _ Hidx), bind_Ok.
  rewrite (index_Ok (j :: rest) 0 j eq_refl), bind_Ok.
  unfold at_label. rewrite Hdf. reflexivity.
Qed.

(** The second loop can only stop on an [IndexError]: a label taken from
    [self.idx] is always a label of the table. *)
Lemma accumulate_step_cases (label : list string) (m a : list Z) (acc : R * R)
    (i : nat) :
  let idx := zip_with (λ l x, index_tolist (el_a_cond l x) df) label a in
  (∃ acc', accumulate_step df m idx acc i = Ok acc') ∨
  accumulate_step df m idx acc i = Raise IndexError.
Proof.
  intros idx. unfold accumulate_step.
  index_case m i mul Hmul ltac:(by right).
  index_case idx i labels Hlabels ltac:(by right).
  index_case labels 0%nat j Hj ltac:(by right).
  left. apply lookup_zip_with_Some in Hlabels as (l & x & Hl & _ & _). subst labels.
  destruct (at_label_index_tolist (el_a_cond l x) df j) as [r ->].
  - eapply list_elem_of_lookup_2. exact Hj.
  - rewrite bind_Ok. eauto.
Qed.

End table.

Lemma foldl_accumulate (m : list Z) (rows : list row) (acc : R * R) :
  accumulate_rows m rows acc
  = (fst acc + Rsum (zip_with (λ mul r, IZR mul * col_ame_tot r) m rows),
     snd acc + Rsum (zip_with (λ mul r, IZR mul * col_amunc r ^ 2) m rows))%R.
Proof.
  unfold accumulate_rows. revert rows acc.
  induction m as [|mul m IH]; intros [|r rows] [x y];
    cbn [zip_with foldl Rsum foldr fst snd]; try (f_equal; lra).
  rewrite IH. cbn [fst snd]. unfold Rsum. f_equal; lra.
Qed.

(** ** [get_ame_mass] on resolved constituents *)

Lemma io_bind_lift_Ok {A B} (a : A) (f : A → io B) : (lift (Ok a) ≫= f) = f a.
Proof. unfold lift, mbind, io_bind. destruct (f a). reflexivity. Qed.

Lemma io_bind_lift_Raise {A B} (e : exn) (f : A → io B) :
  (lift (Raise e) ≫= f) = ([], Raise e).
Proof. reflexivity. Qed.

Lemma evaluate_expr_decompose (expr : string) (flag : bool) :
  evaluate_expr expr flag
  = ('(m, a, sym) ← decompose expr;
     z ← mapM (getitem symbols) sym;
     match flag return result (eval_ty flag) with
     | true => Ok (join sym, py_sum m, py_sum a, py_sum z)
     | false => Ok (sym, m, a, z)
     end).
Proof. reflexivity. Qed.

Lemma evaluate_expr_lists_inv (expr : string) (sym : list string) (m a z : list Z) :
  evaluate_expr expr false = Ok (sym, m, a, z) →
  decompose expr = Ok (m, a, sym) ∧ mapM (getitem symbols) sym = Ok z.
Proof.
  rewrite evaluate_expr_decompose. intros H.
  apply bind_Ok_inv in H as ([[m' a'] sym'] & Hd & H).
  apply bind_Ok_inv in H as (z' & Hz & H).
  injection H as <- <- <- <-. auto.
Qed.

(** The symbol table maps each constituent to its proton number. *)
Lemma evaluate_expr_protons (expr : string) (sym : list string) (m a z : list Z) :
  evaluate_expr expr false = Ok (sym, m, a, z) →
  Forall2 (λ s p, symbols !! s = Some p) sym z.
Proof.
  intros [_ H]%evaluate_expr_lists_inv. apply mapM_Ok_Forall2 in H.
  eapply Forall2_impl; [exact H|]. intros s p. unfold getitem.
  destruct (symbols !! s); congruence.
Qed.

Lemma mapM_length {A B} (f : A → result B) (l : list A) (k : list B) :
  mapM f l = Ok k → length k = length l.
Proof. intros H%mapM_Ok_Forall2. symmetry. exact (Forall2_length _ _ _ H). Qed.

(** The multiplicities and the mass numbers always come in equal number. *)
Lemma decompose_lengths (expr : string) (sym : list string) (m a : list Z) :
  decompose expr = Ok (m, a, sym) → length m = length a.
Proof.
  unfold decompose, get_molecule_info.
  destruct (char_in ":" expr); cbn [negb].
  - destruct (get_number_symbol expr) as [tmp_nbrs sym'].
    destruct (length sym' <? length tmp_nbrs)%nat.
    + intros H. apply bind_Ok_inv in H as (multi & Hmulti & H).
      apply bind_Ok_inv in H as (a' & Ha & H). injection H as <- <- <-.
      apply mapM_length in Hmulti, Ha.
      rewrite Hmulti, Ha, !length_py_range. f_equal. lia.
    + intros [= <- <- <-]. apply length_replicate.
  - destruct (get_number_symbol expr) as [a' sym'].
    intros [= <- <- <-]. apply length_replicate.
Qed.

Lemma evaluate_expr_lengths (expr : string) (sym : list string) (m a z : list Z) :
  evaluate_expr expr false = Ok (sym, m, a, z) → length m = length a.
Proof. intros [H _]%evaluate_expr_lists_inv. exact (decompose_lengths _ _ _ _ H). Qed.

(** What [get_ame_mass] returns when every constituent has a row. *)
Lemma get_ame_mass_resolved (df : DataFrame) (el_expr : string)
    (label : list string) (m a z : list Z) (rows : list row) :
  evaluate_expr el_expr false = Ok (label, m, a, z) →
  resolved df label a rows →
  get_ame_mass df el_expr
  = (match label with [] => [not_found_message] | _ => [] end,
     Ok (join label,
         fst (accumulate_rows m rows (0, 0)%R),
         sqrt (snd (accumulate_rows m rows (0, 0)%R)),
         py_sum (zip_with Z.mul a m),
         py_sum z,
         py_sum (zip_with Z.mul a m) - py_sum z,
         1)).
Proof.
  intros Heval Hres. pose proof (evaluate_expr_lengths _ _ _ _ _ Heval) as Hm.
  pose proof (resolved_length _ _ _ _ Hres) as Hrows.
  unfold get_ame_mass. rewrite Heval, io_bind_lift_Ok. cbv beta iota zeta.
  rewrite (lookup_rows_Ok _ _ _ (proj1 Hres)), io_bind_lift_Ok.
  destruct label as [|l label].
  - destruct rows; [|discriminate]. unfold accumulate_rows.
    rewrite zip_with_nil_r. reflexivity.
  - destruct a as [|x a]; [destruct Hres as [Hle _]; cbn in Hle; lia|].
    pose proof (accumulate_Ok df (l :: label) m (x :: a) rows (0, 0)%R Hres) as Hacc.
    cbv zeta in Hacc. cbn [zip_with] in Hacc |- *.
    rewrite Hacc by lia. rewrite io_bind_lift_Ok.
    destruct (accumulate_rows m rows (0, 0)%R) as [mass unc]. reflexivity.
Qed.

(** ** [get_ame_mass] when it returns, and when a row is missing *)

Lemma get_ame_mass_Ok_inv (df : DataFrame) (el_expr : string) (out : list string)
    (sym : string) (mass unc : R) (ta tz tn q : Z) :
  get_ame_mass df el_expr = (out, Ok (sym, mass, unc, ta, tz, tn, q)) →
  ∃ label m a z,
    evaluate_expr el_expr false = Ok (label, m, a, z) ∧
    sym = join label ∧
    ta = py_sum (zip_with Z.mul a m) ∧
    tz = py_sum z ∧ tn = ta - tz ∧ q = 1.
Proof.
  unfold get_ame_mass.
  destruct (evaluate_expr el_expr false) as [[[[label m] a] z]|e];
    [|rewrite io_bind_lift_Raise; discriminate].
  rewrite io_bind_lift_Ok. cbv beta iota zeta.
  destruct (lookup_rows df label a) as [idx|e];
    [|rewrite io_bind_lift_Raise; discriminate].
  rewrite io_bind_lift_Ok. intros H. exists label, m, a, z.
  destruct idx as [|labels idx].
  - injection H as _ <- _ _ <- <- <- <-. auto 10.
  - destruct (for_loop _ _ _) as [[mass' unc']|e];
      [|rewrite io_bind_lift_Raise in H; discriminate].
    rewrite io_bind_lift_Ok in H. injection H as _ <- _ _ <- <- <- <-. auto 10.
Qed.

Lemma first_row_None (df : DataFrame) (el : string) (a : Z) :
  first_row df el a = None → index_tolist (el_a_cond el a) df = [].
Proof.
  unfold first_row. destruct (index_tolist _ df) as [|j rest] eqn:Hj; [reflexivity|].
  cbn. intros Hdf. apply lookup_ge_None_1 in Hdf.
  assert (j ∈ index_tolist (el_a_cond el a) df) as Hin by (rewrite Hj; left).
  apply labels_from_bounds in Hin. lia.
Qed.

(** A constituent without a row: the call ends in an [IndexError], and
    nothing is printed. *)
Lemma get_ame_mass_lookup_miss (df : DataFrame) (el_expr : string)
    (label : list string) (m a z : list Z) (i : nat) (l : string) (x : Z) :
  evaluate_expr el_expr false = Ok (label, m, a, z) →
  label !! i = Some l → a !! i = Some x → first_row df l x = None →
  get_ame_mass df el_expr = ([], Raise IndexError).
Proof.
  intros Heval Hl Hx Hnone%first_row_None.
  unfold get_ame_mass. rewrite Heval, io_bind_lift_Ok. cbv beta iota zeta.
  destruct (decide (length label ≤ length a)%nat) as [Hle|Hgt];
    [|rewrite lookup_rows_Raise by lia; reflexivity].
  rewrite (lookup_rows_Ok _ _ _ Hle), io_bind_lift_Ok.
  set (idx := zip_with _ label a).
  assert (idx !! i = Some []) as Hidx.
  { unfold idx. apply lookup_zip_with_Some. exists l, x. rewrite Hnone. auto. }
  destruct idx as [|labels idx'] eqn:Eidx; [rewrite lookup_nil in Hidx; discriminate|].
  rewrite <- Eidx in *.
  rewrite (for_loop_IndexError _ _ i); [reflexivity| | |].
  - intros s y. apply accumulate_step_cases.
  - rewrite py_range_1. apply elem_of_seq. apply lookup_lt_Some in Hidx. lia.
  - intros s. unfold accumulate_step.
    destruct (index_cases m i) as [(mul & _ & ->) | -> ]; [|reflexivity].
    rewrite bind_Ok, (index_Ok _ _ _ Hidx), bind_Ok. reflexivity.
Qed.

(** ** Symbols and the scan *)

Lemma decompose_symbols (expr : string) (sym : list string) (m a : list Z) :
  decompose expr = Ok (m, a, sym) → sym = findall_symbols expr.
Proof.
  unfold decompose, get_molecule_info, get_number_symbol.
  destruct (char_in ":" expr); cbn [negb].
  - destruct (_ <? _)%nat.
    + intros H. apply bind_Ok_inv in H as (multi & _ & H).
      apply bind_Ok_inv in H as (a' & _ & H). congruence.
    + congruence.
  - congruence.
Qed.

(** Looking the symbols up stops at the first one that is not a key. *)
Lemma mapM_getitem_unknown (sym : list string) (s : string) :
  s ∈ sym → symbols !! s = None →
  ∃ s0, s0 ∈ sym ∧ symbols !! s0 = None ∧
        mapM (getitem symbols) sym = Raise (KeyError (KStr s0)).
Proof.
  intros Hin Hs. induction sym as [|t sym IH]; [inversion Hin|].
  rewrite mapM_cons.
  destruct (symbols !! t) as [p|] eqn:Ht.
  - replace (getitem symbols t) with (Ok p) by (unfold getitem; by rewrite Ht).
    rewrite bind_Ok.
    apply elem_of_cons in Hin as [->|Hin]; [congruence|].
    destruct (IH Hin) as (s0 & Hs0 & Hnone & ->).
    exists s0. repeat split; [by right | done].
  - replace (getitem symbols t) with (@Raise Z (KeyError (KStr t)))
      by (unfold getitem; by rewrite Ht).
    exists t. repeat split; [by left | done].
Qed.

Lemma symbols_lookup_items (k : string) (p : Z) :
  symbols !! k = Some p → (k, p) ∈ symbols_items.
Proof. apply elem_of_list_to_map_2. Qed.

(** The keys of the literal are pairwise distinct, so the order in which
    the items are entered does not matter. *)
Lemma symbols_keys_NoDup : NoDup symbols_items.*1.
Proof. apply (bool_decide_unpack _). vm_compute. exact I. Qed.

(** Every key but the neutron's is one capital letter, or a capital and a
    small letter: the symbol scan returns it whole. *)
Lemma symbols_keys_scanned (k : string) (p : Z) :
  symbols !! k = Some p → k ≠ "n" → scanned_as_symbol k.
Proof.
  intros Hk%symbols_lookup_items Hn.
  assert (Forall (λ kp, kp.1 = "n" ∨ scanned_as_symbol kp.1) symbols_items) as Hall.
  { apply (bool_decide_unpack _). vm_compute. exact I. }
  rewrite Forall_forall in Hall.
  destruct (Hall _ Hk) as [?|?]; [contradiction|assumption].
Qed.

(** ** Single nuclides *)

Lemma is_digit_not_upper (c : ascii) : is_digit c = true → is_upper c = false.
Proof.
  unfold is_digit, is_upper. intros [H1 H2]%andb_true_iff.
  apply N.leb_le in H1, H2. apply andb_false_iff. left. apply N.leb_gt. lia.
Qed.

Lemma is_digit_not_colon (c : ascii) : is_digit c = true → Ascii.eqb ":" c = false.
Proof.
  intros H. destruct (Ascii.eqb_spec ":" c) as [<-|]; [discriminate|reflexivity].
Qed.

Lemma append_String (c : ascii) (s t : string) : String c s ++ t = String c (s ++ t).
Proof. reflexivity. Qed.

Lemma append_empty_l (t : string) : EmptyString ++ t = t.
Proof. reflexivity. Qed.

Lemma findall_symbols_digits_prefix (ds s : string) :
  all_digits ds = true → findall_symbols (ds ++ s) = findall_symbols s.
Proof.
  induction ds as [|c ds IH]; [reflexivity|].
  rewrite append_String. cbn [all_digits findall_symbols].
  intros [Hc Hds]%andb_true_iff. rewrite (is_digit_not_upper c Hc). auto.
Qed.

Lemma char_in_colon_digits_prefix (ds s : string) :
  all_digits ds = true → char_in ":" (ds ++ s) = char_in ":" s.
Proof.
  induction ds as [|c ds IH]; [reflexivity|].
  rewrite append_String. cbn [all_digits char_in].
  intros [Hc Hds]%andb_true_iff. rewrite (is_digit_not_colon c Hc). auto.
Qed.

(** One to three digits in front of a symbol are one match of the number
    pattern. *)
Lemma findall_digits_prefix (ds : string) (c : ascii) (s : string) :
  all_digits ds = true → (1 ≤ String.length ds ≤ 3)%nat → is_digit c = false →
  findall_digits (ds ++ String c s) = ds :: findall_digits (String c s).
Proof.
  intros Hds Hlen Hc.
  destruct ds as [|c1 [|c2 [|c3 [|c4 ds]]]]; cbn [String.length] in Hlen; try lia;
    cbn [all_digits] in Hds; repeat (apply andb_true_iff in Hds as [? Hds]);
    rewrite ?append_String, append_empty_l; cbn [findall_digits];
    repeat match goal with H : is_digit _ = _ |- _ => rewrite H end;
    reflexivity.
Qed.

Lemma append_empty_r (s : string) : s ++ EmptyString = s.
Proof.
  induction s as [|c s IH]; [reflexivity|]. rewrite append_String, IH. reflexivity.
Qed.

Lemma getitem_Ok (k : string) (p : Z) :
  symbols !! k = Some p → getitem symbols k = Ok p.
Proof. unfold getitem. intros ->. reflexivity. Qed.

(** A mass number of one to three digits followed by a symbol of the table
    written with a capital: the evaluation is one constituent with
    multiplicity 1, and the mass is the stored mass of the first row. *)
Lemma single_nuclide (df : DataFrame) (ds el : string) (p : Z) (r : row) :
  all_digits ds = true → (1 ≤ String.length ds ≤ 3)%nat →
  symbols !! el = Some p → el ≠ "n" →
  first_row df el (py_int ds) = Some r →
  evaluate_expr (ds ++ el) false = Ok ([el], [1], [py_int ds], [p]) ∧
  get_ame_mass df (ds ++ el)
  = ([], Ok (el, col_ame_tot r, Rabs (col_amunc r),
             py_int ds, p, py_int ds - p, 1)).
Proof.
  intros Hds Hlen Hp Hn Hrow.
  destruct (symbols_keys_scanned el p Hp Hn) as (Hsym & Hdig & Hcolon & Hfirst).
  assert (evaluate_expr (ds ++ el) false = Ok ([el], [1], [py_int ds], [p])) as Heval.
  { rewrite evaluate_expr_decompose. unfold decompose, get_number_symbol.
    rewrite char_in_colon_digits_prefix, Hcolon by exact Hds.
    rewrite findall_symbols_digits_prefix, Hsym by exact Hds.
    destruct el as [|c s]; [contradiction|].
    rewrite findall_digits_prefix, Hdig by assumption.
    cbn [fmap list_fmap length replicate]. rewrite bind_Ok.
    rewrite mapM_cons, (getitem_Ok _ _ Hp). reflexivity. }
  split; [exact Heval|].
  rewrite (get_ame_mass_resolved df _ _ _ _ _ [r] Heval).
  - rewrite foldl_accumulate. cbn [fst snd zip_with Rsum foldr join py_sum].
    rewrite append_empty_r.
    replace (0 + (1 * col_ame_tot r + 0))%R with (col_ame_tot r) by lra.
    replace (0 + (1 * col_amunc r ^ 2 + 0))%R with (Rsqr (col_amunc r))
      by (unfold Rsqr; lra).
    rewrite sqrt_Rsqr_abs.
    repeat f_equal; lia.
  - split; [cbn; lia|]. repeat constructor. exact Hrow.
Qed.

(** ** The molecule split *)

Lemma mapM_index_Ok {A} (l : list A) (ixs : list nat) :
  (∀ i, i ∈ ixs → (i < length l)%nat) →
  ∃ ys, mapM (index l) ixs = Ok ys ∧ Forall2 (λ i y, l !! i = Some y) ixs ys.
Proof.
  induction ixs as [|i ixs IH]; intros Hlt.
  - exists []. split; [reflexivity|constructor].
  - destruct IH as (ys & Hys & Hall); [intros j Hj; apply Hlt; by right|].
    destruct (lookup_lt_is_Some_2 l i) as [y Hy]; [apply Hlt; by left|].
    exists (y :: ys). rewrite mapM_cons, (index_Ok _ _ _ Hy), bind_Ok, Hys.
    split; [reflexivity|]. constructor; assumption.
Qed.

(** The items of [range(start, 2 * k + start, 2)] read from a list of
    length [2 * k], for [start] 0 or 1. *)
Lemma mapM_index_step2 {A} (l : list A) (k start : nat) :
  length l = (2 * k)%nat → (start ≤ 1)%nat →
  ∃ ys, mapM (index l) (py_range start (2 * k + start) 2) = Ok ys ∧
        length ys = k ∧ ∀ i, ys !! i = l !! (2 * i + start)%nat.
Proof.
  intros Hl Hstart.
  assert ((2 * k + start - start + (2 - 1)) / 2 = k)%nat as Hlen.
  { replace (2 * k + start - start + (2 - 1))%nat with (1 + k * 2)%nat by lia.
    rewrite Nat.div_add by lia. reflexivity. }
  destruct (mapM_index_Ok l (py_range start (2 * k + start) 2)) as (ys & Hys & Hall).
  { intros i Hi. apply list_elem_of_lookup in Hi as [j Hj].
    pose proof (lookup_lt_Some _ _ _ Hj) as Hjlt.
    rewrite length_py_range, Hlen in Hjlt.
    rewrite lookup_py_range in Hj by (rewrite Hlen; exact Hjlt).
    injection Hj as <-. lia. }
  exists ys. split; [exact Hys|].
  pose proof (Forall2_length _ _ _ Hall) as Hlenys.
  rewrite length_py_range, Hlen in Hlenys. split; [lia|].
  intros i. destruct (decide (i < k)%nat) as [Hi|Hi].
  - destruct (Forall2_lookup_l _ _ _ i (start + i * 2)%nat Hall) as (y & Hy & Hly).
    { apply lookup_py_range. rewrite Hlen. exact Hi. }
    rewrite Hy, <- Hly. f_equal. lia.
  - rewrite !lookup_ge_None_2 by lia. reflexivity.
Qed.


(** ** Mass excess *)

Lemma scale_neq_0 : scale ≠ 0%R.
Proof. unfold scale. lra. Qed.

(** * The stated properties, one by one *)

(** C1. For the molecule expression "2H1:1O16" the parse returns the
    multiplicities [2,1] and the mass numbers [1,16]; the mass combination
    returns the mass number 2*1 + 1*16 = 18 and the mass
    2*mass(H,1) + 1*mass(O,16), each mass being the stored mass of the first
    table row with that element and mass number. *)
Theorem C1_molecule_2H1_1O16 (df : DataFrame) (rH rO : row) :
  first_row df "H" 1 = Some rH →
  first_row df "O" 16 = Some rO →
  get_molecule_info "2H1:1O16" = Ok ([2; 1], [1; 16], ["H"; "O"]) ∧
  get_ame_mass df "2H1:1O16"
  = ([], Ok ("HO",
             (2 * col_ame_tot rH + 1 * col_ame_tot rO)%R,
             sqrt (2 * col_amunc rH ^ 2 + 1 * col_amunc rO ^ 2),
             2 * 1 + 1 * 16, 9, 9, 1)).
Proof.
  intros HH HO. split; [vm_compute; reflexivity|].
  rewrite (get_ame_mass_resolved df _ ["H"; "O"] [2; 1] [1; 16] [1; 8] [rH; rO]).
  - rewrite foldl_accumulate. cbn [fst snd zip_with Rsum foldr].
    replace (0 + (2 * col_ame_tot rH + (1 * col_ame_tot rO + 0)))%R
      with (2 * col_ame_tot rH + 1 * col_ame_tot rO)%R by lra.
    replace (0 + (2 * col_amunc rH ^ 2 + (1 * col_amunc rO ^ 2 + 0)))%R
      with (2 * col_amunc rH ^ 2 + 1 * col_amunc rO ^ 2)%R by lra.
    reflexivity.
  - vm_compute. reflexivity.
  - split; [cbn; lia|]. repeat constructor; assumption.
Qed.

Lemma C1_molecule_2H1_1O16_witness :
  get_molecule_info "2H1:1O16" = Ok ([2; 1], [1; 16], ["H"; "O"]) ∧
  get_ame_mass small_table "2H1:1O16"
  = ([], Ok ("HO",
             (2 * col_ame_tot row_H1 + 1 * col_ame_tot row_O16)%R,
             sqrt (2 * col_amunc row_H1 ^ 2 + 1 * col_amunc row_O16 ^ 2),
             2 * 1 + 1 * 16, 9, 9, 1)).
Proof. apply (C1_molecule_2H1_1O16 small_table row_H1 row_O16); reflexivity. Defined.

(** C2 (what the code does instead). The claim: when the constituent list
    is not empty and one (symbol, mass number) pair has no table row,
    [get_ame_mass] prints its notice and returns a result with zero mass.
    On "300H" and any table without a hydrogen row of mass number 300 the
    call prints nothing and ends in an [IndexError]: [self.idx] holds one
    list, an empty one, so it is not empty itself and the test on it does
    not see the miss. *)
Theorem C2_lookup_miss_300H (df : DataFrame) :
  first_row df "H" 300 = None →
  evaluate_expr "300H" false = Ok (["H"], [1], [300], [1]) ∧
  get_ame_mass df "300H" = ([], Raise IndexError).
Proof.
  intros Hnone.
  assert (evaluate_expr "300H" false = Ok (["H"], [1], [300], [1])) as Heval
    by (vm_compute; reflexivity).
  split; [exact Heval|].
  exact (get_ame_mass_lookup_miss df _ _ _ _ _ 0 "H" 300 Heval eq_refl eq_refl Hnone).
Qed.

Lemma C2_lookup_miss_300H_witness :
  evaluate_expr "300H" false = Ok (["H"], [1], [300], [1]) ∧
  get_ame_mass small_table "300H" = ([], Raise IndexError).
Proof. apply (C2_lookup_miss_300H small_table). reflexivity. Defined.

(** C3. When every constituent of an expression has a table row, the mass
    uncertainty returned by [get_ame_mass] is the square root of the sum of
    multiplicity * recordUncertainty^2 over the constituents: the weight
    is the multiplicity itself, not its square. *)
Theorem C3_uncertainty_quadrature (df : DataFrame) (el_expr : string)
    (label : list string) (m a z : list Z) (rows : list row) :
  evaluate_expr el_expr false = Ok (label, m, a, z) →
  resolved df label a rows →
  ∃ out sym mass ta tz tn q,
    get_ame_mass df el_expr
    = (out, Ok (sym, mass,
                sqrt (Rsum (zip_with (λ mul r, IZR mul * col_amunc r ^ 2)%R m rows)),
                ta, tz, tn, q)).
Proof.
  intros Heval Hres.
  rewrite (get_ame_mass_resolved df _ _ _ _ _ _ Heval Hres), foldl_accumulate.
  cbn [fst snd]. rewrite !Rplus_0_l. eauto 10.
Qed.

Lemma C3_uncertainty_quadrature_witness :
  ∃ out sym mass ta tz tn q,
    get_ame_mass small_table "2H1:1O16"
    = (out, Ok (sym, mass,
                sqrt (Rsum (zip_with (λ mul r, IZR mul * col_amunc r ^ 2)%R
                                     [2; 1] [row_H1; row_O16])),
                ta, tz, tn, q)).
Proof.
  apply (C3_uncertainty_quadrature small_table "2H1:1O16"
           ["H"; "O"] [2; 1] [1; 16] [1; 8] [row_H1; row_O16]).
  - vm_compute. reflexivity.
  - split; [vm_compute; lia|]. repeat constructor.
Defined.

(** The weight is not the square of the multiplicity: on "2H1:1O16" the
    uncertainty differs from the square root of the sum of
    (multiplicity * recordUncertainty)^2 as soon as the hydrogen row has an
    uncertainty. *)
Lemma uncertainty_weight_not_squared (df : DataFrame) (rH rO : row)
    (out : list string) (sym : string) (mass unc : R) (ta tz tn q : Z) :
  first_row df "H" 1 = Some rH →
  first_row df "O" 16 = Some rO →
  col_amunc rH ≠ 0%R →
  get_ame_mass df "2H1:1O16" = (out, Ok (sym, mass, unc, ta, tz, tn, q)) →
  unc ≠ sqrt (Rsum (zip_with (λ mul r, (IZR mul * col_amunc r) ^ 2)%R
                             [2; 1] [rH; rO])).
Proof.
  intros HH HO Hu Hget.
  rewrite (get_ame_mass_resolved df _ ["H"; "O"] [2; 1] [1; 16] [1; 8] [rH; rO])
    in Hget; [|vm_compute; reflexivity|].
  2: { split; [cbn; lia|]. repeat constructor; assumption. }
  rewrite foldl_accumulate in Hget. cbn [fst snd zip_with Rsum foldr] in Hget.
  injection Hget; intros; subst unc. cbn [zip_with Rsum foldr].
  set (u := col_amunc rH) in *. set (v := col_amunc rO).
  intros Heq. apply sqrt_inj in Heq; [|nra|nra].
  apply Hu. nra.
Qed.

(** C4. Whenever [get_ame_mass] returns, the proton number it returns is
    the plain sum of the constituents' proton numbers (each counted once,
    whatever its multiplicity, while the mass number is the sum of
    multiplicity * massNumber), the neutron number is A - Z, and the
    charge is 1. *)
Theorem C4_proton_neutron_charge (df : DataFrame) (el_expr : string)
    (out : list string) (sym : string) (mass unc : R) (ta tz tn q : Z) :
  get_ame_mass df el_expr = (out, Ok (sym, mass, unc, ta, tz, tn, q)) →
  ∃ label m a z,
    evaluate_expr el_expr false = Ok (label, m, a, z) ∧
    Forall2 (λ s p, symbols !! s = Some p) label z ∧
    tz = py_sum z ∧
    ta = py_sum (zip_with Z.mul a m) ∧
    tn = ta - tz ∧
    q = 1.
Proof.
  intros H. apply get_ame_mass_Ok_inv in H
    as (label & m & a & z & Heval & _ & Ha & Hz & Hn & Hq).
  exists label, m, a, z. repeat split; try assumption.
  exact (evaluate_expr_protons _ _ _ _ _ Heval).
Qed.

Lemma C4_proton_neutron_charge_witness :
  ∃ label m a z,
    evaluate_expr "2H1:1O16" false = Ok (label, m, a, z) ∧
    Forall2 (λ s p, symbols !! s = Some p) label z ∧
    9 = py_sum z ∧
    18 = py_sum (zip_with Z.mul a m) ∧
    9 = 18 - 9 ∧
    1 = 1.
Proof.
  apply (C4_proton_neutron_charge small_table "2H1:1O16" [] "HO"
           (fst (accumulate_rows [2; 1] [row_H1; row_O16] (0, 0)%R))
           (sqrt (snd (accumulate_rows [2; 1] [row_H1; row_O16] (0, 0)%R)))).
  vm_compute. reflexivity.
Defined.

(** C5 (what the code does instead). The claim: for every expression
    {A}{EL} with EL a known symbol and a table row for (EL, A), the
    evaluation gives multiplicity 1, mass number A, the proton number of EL
    and the stored mass of the first matching row. It holds for every
    symbol written with a capital ([single_nuclide]); the table also has
    the key "n", and a neutron row is in the mass table, but the symbol
    pattern needs a capital: "1n" yields no symbol at all, the notice is
    printed and the mass returned is zero. *)
Theorem C5_neutron_not_scanned :
  symbols !! "n" = Some 0 ∧
  first_row small_table "n" 1 = Some row_n ∧
  col_ame_tot row_n ≠ 0%R ∧
  evaluate_expr "1n" false = Ok ([], [1], [1], []) ∧
  get_ame_mass small_table "1n"
  = ([not_found_message], Ok (EmptyString, 0%R, 0%R, 1, 0, 1, 1)).
Proof.
  assert (evaluate_expr "1n" false = Ok ([], [1], [1], [])) as Heval
    by (vm_compute; reflexivity).
  split; [vm_compute; reflexivity|]. split; [reflexivity|].
  split; [cbn [col_ame_tot row_n]; lra|]. split; [exact Heval|].
  rewrite (get_ame_mass_resolved small_table _ _ _ _ _ [] Heval).
  - rewrite foldl_accumulate. cbn [fst snd zip_with Rsum foldr join py_sum].
    rewrite Rplus_0_l, sqrt_0. reflexivity.
  - split; [cbn; lia|]. constructor.
Qed.

(** C6, counterexample. "2H1:Zz16" has the unknown token "Zz", three
    numbers and two symbols: the molecule split indexes past the end of the
    numbers before any symbol is looked up. *)
Lemma C6_counterexample :
  "Zz" ∈ findall_symbols "2H1:Zz16" ∧ symbols !! "Zz" = None ∧
  evaluate_expr "2H1:Zz16" false = Raise IndexError ∧
  ¬ unknown_symbol_claim.
Proof.
  assert ("Zz" ∈ findall_symbols "2H1:Zz16") as Hin by (vm_compute; right; left).
  assert (symbols !! "Zz" = None) as Hnone by (vm_compute; reflexivity).
  assert (evaluate_expr "2H1:Zz16" false = Raise IndexError) as Heval
    by (vm_compute; reflexivity).
  repeat split; try assumption.
  intros H. destruct (H "2H1:Zz16" false "Zz" Hin Hnone) as [key Hkey].
  rewrite Heval in Hkey. discriminate.
Qed.

(** C6, amended. An expression with a symbol token that is not a key of the
    table never evaluates to a result, so no proton number is made up for
    it; and when the expression has no colon, or its molecule split
    succeeds, the evaluation raises the [KeyError] of an unknown token. *)
Theorem C6_unknown_symbol (expr : string) (flag : bool) (s : string) :
  s ∈ findall_symbols expr → symbols !! s = None →
  (∀ v, evaluate_expr expr flag ≠ Ok v) ∧
  ∃ s0, s0 ∈ findall_symbols expr ∧ symbols !! s0 = None ∧
    (char_in ":" expr = false ∨ (∃ r, get_molecule_info expr = Ok r) →
     evaluate_expr expr flag = Raise (KeyError (KStr s0))).
Proof.
  intros Hin Hnone.
  destruct (mapM_getitem_unknown _ _ Hin Hnone) as (s0 & Hs0 & Hnone0 & Hraise).
  assert (∀ m a sym, decompose expr = Ok (m, a, sym) →
          evaluate_expr expr flag = Raise (KeyError (KStr s0))) as Hdec.
  { intros m a sym Hd. rewrite evaluate_expr_decompose, Hd, bind_Ok.
    rewrite <- (decompose_symbols _ _ _ _ Hd) in Hraise. rewrite Hraise.
    reflexivity. }
  split.
  - intros v Hv. pose proof Hv as Hv'. rewrite evaluate_expr_decompose in Hv'.
    apply bind_Ok_inv in Hv' as ([[m a] sym] & Hd & _).
    rewrite (Hdec _ _ _ Hd) in Hv. discriminate.
  - exists s0. repeat split; [assumption..|].
    intros [Hcolon|[[[m a] sym] Hr]].
    + apply (Hdec (replicate (length (get_number_symbol expr).1) 1)
                  (get_number_symbol expr).1 (get_number_symbol expr).2).
      unfold decompose. rewrite Hcolon. reflexivity.
    + destruct (char_in ":" expr) eqn:Hcolon.
      * apply (Hdec m a sym). unfold decompose. rewrite Hcolon. exact Hr.
      * apply (Hdec (replicate (length (get_number_symbol expr).1) 1)
                    (get_number_symbol expr).1 (get_number_symbol expr).2).
        unfold decompose. rewrite Hcolon. reflexivity.
Qed.

Lemma C6_unknown_symbol_witness :
  (∀ v, evaluate_expr "99Zz" false ≠ Ok v) ∧
  ∃ s0, s0 ∈ findall_symbols "99Zz" ∧ symbols !! s0 = None ∧
    (char_in ":" "99Zz" = false ∨ (∃ r, get_molecule_info "99Zz" = Ok r) →
     evaluate_expr "99Zz" false = Raise (KeyError (KStr s0))).
Proof.
  apply (C6_unknown_symbol "99Zz" false "Zz").
  - vm_compute. left.
  - vm_compute. reflexivity.
Defined.

(** C7. For every mass value m, uncertainty unc and mass number A, the
    mass excess (m * 1e-6 - A) * 931494.061 taken back through the isomer
    conversion (ME / 931494.061 + A) * 1e6, with excitation energy 0, is m
    again; in exact arithmetic the two are equal. *)
Theorem C7_mass_excess_round_trip (m unc a : R) :
  isomer_amass ((mass_excess m unc a).1 + 0) a = m.
Proof.
  unfold isomer_amass, mass_excess. cbn [fst]. pose proof scale_neq_0.
  field. assumption.
Qed.

(** The same through the table: an isomer at excitation energy 0 of a row
    whose mass excess was computed by [mass_excess] has the mass the excess
    was computed from. *)
Lemma calc_isomer_mass_round_trip (df : DataFrame) (el_id sym : string)
    (mm a z : Z) (r : row) (m unc : R) :
  evaluate_expr el_id true = Ok (sym, mm, a, z) →
  first_row df sym a = Some r →
  col_ME r = (mass_excess m unc (IZR a)).1 →
  ∃ r', calc_isomer_mass df el_id 0 = Ok r' ∧ col_ame_tot r' = m ∧
        col_EL r' = sym ++ "^m" ∧ col_A r' = a ∧ col_Z r' = z ∧ col_N r' = a - z.
Proof.
  intros Heval Hrow HME. unfold calc_isomer_mass.
  rewrite Heval, bind_Ok. cbv beta iota zeta.
  apply first_row_label in Hrow as (j & rest & -> & Hdf).
  rewrite (index_Ok (j :: rest) 0 j eq_refl), bind_Ok.
  unfold at_label. rewrite Hdf, bind_Ok. eexists. split; [reflexivity|].
  cbn [col_ame_tot col_EL col_A col_Z col_N]. rewrite HME.
  split; [|auto]. unfold isomer_amass, mass_excess. cbn [fst].
  pose proof scale_neq_0. field. assumption.
Qed.

(** C8, counterexample. "2H1:O16" has the three numbers 2, 1, 16 and the
    two symbols H, O: the mass numbers are read at the places 1 and 3, and
    there is no place 3. *)
Lemma C8_counterexample :
  char_in ":" "2H1:O16" = true ∧
  get_number_symbol "2H1:O16" = ([2; 1; 16], ["H"; "O"]) ∧
  get_molecule_info "2H1:O16" = Raise IndexError ∧
  ¬ interleaved_claim.
Proof.
  assert (get_molecule_info "2H1:O16" = Raise IndexError) as Hr
    by (vm_compute; reflexivity).
  split; [reflexivity|]. split; [reflexivity|]. split; [exact Hr|].
  intros H. destruct (H "2H1:O16" [2; 1; 16] ["H"; "O"]) as (multi & a & Hok & _).
  - reflexivity.
  - reflexivity.
  - cbn. lia.
  - rewrite Hr in Hok. discriminate.
Qed.

(** C8, amended. With a colon, more numbers than symbols and an even count
    of numbers, the parse returns the numbers at even places as
    multiplicities and those at odd places as mass numbers, in equal
    number. *)
Theorem C8_interleaved_even (expr : string) (tmp_nbrs : list Z) (sym : list string) :
  char_in ":" expr = true →
  get_number_symbol expr = (tmp_nbrs, sym) →
  (length sym < length tmp_nbrs)%nat →
  Nat.even (length tmp_nbrs) = true →
  ∃ multi a,
    get_molecule_info expr = Ok (multi, a, sym) ∧
    length multi = length a ∧
    (∀ i, multi !! i = tmp_nbrs !! (2 * i)%nat) ∧
    (∀ i, a !! i = tmp_nbrs !! (2 * i + 1)%nat).
Proof.
  intros Hcolon Hscan Hlt Heven.
  apply Nat.even_spec in Heven as [k Hk].
  destruct (mapM_index_step2 tmp_nbrs k 0 Hk) as (multi & Hmulti & Hlm & Hm); [lia|].
  destruct (mapM_index_step2 tmp_nbrs k 1 Hk) as (a & Ha & Hla & Haa); [lia|].
  exists multi, a. unfold get_molecule_info.
  rewrite Hcolon, Hscan. cbn [negb].
  apply Nat.ltb_lt in Hlt. rewrite Hlt, Hk.
  rewrite Nat.add_0_r in Hmulti. rewrite Hmulti, bind_Ok, Ha, bind_Ok.
  repeat split; [lia| |exact Haa].
  intros i. rewrite Hm. f_equal. lia.
Qed.

Lemma C8_interleaved_even_witness :
  ∃ multi a,
    get_molecule_info "2H1:1O16" = Ok (multi, a, ["H"; "O"]) ∧
    length multi = length a ∧
    (∀ i, multi !! i = [2; 1; 1; 16] !! (2 * i)%nat) ∧
    (∀ i, a !! i = [2; 1; 1; 16] !! (2 * i + 1)%nat).
Proof.
  apply (C8_interleaved_even "2H1:1O16" [2; 1; 1; 16] ["H"; "O"]).
  - reflexivity.
  - reflexivity.
  - vm_compute. lia.
  - reflexivity.
Defined.

(** C9, counterexample. "U" evaluates to one symbol and one proton
    number, against no multiplicity and no mass number. *)
Lemma C9_counterexample :
  symbols !! "U" = Some 92 ∧
  evaluate_expr "U" false = Ok (["U"], [], [], [92]) ∧
  ¬ symbol_alone_claim.
Proof.
  assert (symbols !! "U" = Some 92) as HU by (vm_compute; reflexivity).
  assert (evaluate_expr "U" false = Ok (["U"], [], [], [92])) as Heval
    by (vm_compute; reflexivity).
  split; [exact HU|]. split; [exact Heval|].
  intros H. destruct (H "U" 92 HU) as (a0 & z & Hr).
  rewrite Heval in Hr. discriminate.
Qed.

(** C9, amended. A symbol of the table written with a capital, on its own,
    evaluates to the list of that one symbol and the list of its proton
    number, with an empty list of multiplicities and an empty list of mass
    numbers; in the combined view the multiplicity and the mass number are
    both 0. *)
Theorem C9_symbol_alone (el : string) (p : Z) :
  symbols !! el = Some p → el ≠ "n" →
  evaluate_expr el false = Ok ([el], [], [], [p]) ∧
  evaluate_expr el true = Ok (el, 0, 0, p).
Proof.
  intros Hp Hn.
  destruct (symbols_keys_scanned el p Hp Hn) as (Hsym & Hdig & Hcolon & _).
  rewrite !evaluate_expr_decompose. unfold decompose, get_number_symbol.
  rewrite Hcolon, Hsym, Hdig. cbn [fmap list_fmap length replicate].
  rewrite !bind_Ok, mapM_cons, (getitem_Ok _ _ Hp), bind_Ok, mapM_nil, !bind_Ok.
  cbn [join foldr py_sum]. rewrite append_empty_r, Z.add_0_r. split; reflexivity.
Qed.

Lemma C9_symbol_alone_witness :
  evaluate_expr "U" false = Ok (["U"], [], [], [92]) ∧
  evaluate_expr "U" true = Ok ("U", 0, 0, 92).
Proof.
  apply (C9_symbol_alone "U" 92).
  - vm_compute. reflexivity.
  - discriminate.
Defined.

(** C10. Two expressions that both contain a colon and have the same
    sequence of extracted digit runs and the same sequence of symbol tokens
    evaluate alike, in both views: where the colons stand, and how many
    there are, does not matter. *)
Theorem C10_colons_do_not_delimit (expr1 expr2 : string) (flag : bool) :
  char_in ":" expr1 = true → char_in ":" expr2 = true →
  findall_digits expr1 = findall_digits expr2 →
  findall_symbols expr1 = findall_symbols expr2 →
  evaluate_expr expr1 flag = evaluate_expr expr2 flag.
Proof.
  intros H1 H2 Hd Hs. unfold evaluate_expr, get_molecule_info, get_number_symbol.
  rewrite H1, H2, Hd, Hs. reflexivity.
Qed.

Lemma C10_colons_do_not_delimit_witness :
  evaluate_expr "40Ca:19F" false = evaluate_expr "40:Ca19F" false.
Proof.
  apply (C10_colons_do_not_delimit "40Ca:19F" "40:Ca19F" false); reflexivity.
Defined.

(** * Further properties of the code *)

(** ** The two scans *)

(** One step of each scan, the calls on the rest left folded. *)
Lemma findall_digits_eq (s : string) :
  findall_digits s
  = match s with
    | EmptyString => []
    | String c1 s1 =>
      if is_digit c1 then
        match s1 with
        | String c2 s2 =>
          if is_digit c2 then
            match s2 with
            | String c3 s3 =>
              if is_digit c3
              then String c1 (String c2 (String c3 EmptyString)) :: findall_digits s3
              else String c1 (String c2 EmptyString) :: findall_digits s2
            | EmptyString => String c1 (String c2 EmptyString) :: findall_digits s2
            end
          else String c1 EmptyString :: findall_digits s1
        | EmptyString => String c1 EmptyString :: findall_digits s1
        end
      else findall_digits s1
    end.
Proof. destruct s; reflexivity. Qed.

Lemma findall_symbols_eq (s : string) :
  findall_symbols s
  = match s with
    | EmptyString => []
    | String c1 s1 =>
      if is_upper c1 then
        match s1 with
        | String c2 s2 =>
          if is_lower c2
          then String c1 (String c2 EmptyString) :: findall_symbols s2
          else String c1 EmptyString :: findall_symbols s1
        | EmptyString => String c1 EmptyString :: findall_symbols s1
        end
      else findall_symbols s1
    end.
Proof. destruct s; reflexivity. Qed.

(** The end of a proof by induction on the length of the scanned string:
    the matches found satisfy the property, the rest is shorter. *)
Ltac scan_step IH :=
  cbv beta iota;
  repeat match goal with
         | |- context [if ?b then _ else _] => destruct b eqn:?
         end;
  repeat match goal with
         | |- Forall _ (_ :: _) => apply Forall_cons_2; [solve [auto]|]
         end;
  first [apply Forall_nil_2 | apply IH; cbn [String.length]; lia].

(** A property of every match of the number pattern holds of every item
    of the scan. *)
Lemma findall_digits_Forall (P : string → Prop) :
  (∀ c1, is_digit c1 = true → P (String c1 EmptyString)) →
  (∀ c1 c2, is_digit c1 = true → is_digit c2 = true →
            P (String c1 (String c2 EmptyString))) →
  (∀ c1 c2 c3, is_digit c1 = true → is_digit c2 = true → is_digit c3 = true →
               P (String c1 (String c2 (String c3 EmptyString)))) →
  ∀ s, Forall P (findall_digits s).
Proof.
  intros P1 P2 P3 s.
  assert (∀ n s, (String.length s ≤ n)%nat → Forall P (findall_digits s)) as H;
    [|exact (H _ s (le_n _))].
  clear s. induction n as [|n IH]; intros s Hlen.
  - destruct s; [constructor|cbn in Hlen; lia].
  - rewrite findall_digits_eq.
    destruct s as [|c1 [|c2 [|c3 s3]]]; cbn [String.length] in Hlen; scan_step IH.
Qed.

Lemma findall_symbols_Forall (P : string → Prop) :
  (∀ u, is_upper u = true → P (String u EmptyString)) →
  (∀ u l, is_upper u = true → is_lower l = true →
          P (String u (String l EmptyString))) →
  ∀ s, Forall P (findall_symbols s).
Proof.
  intros P1 P2 s.
  assert (∀ n s, (String.length s ≤ n)%nat → Forall P (findall_symbols s)) as H;
    [|exact (H _ s (le_n _))].
  clear s. induction n as [|n IH]; intros s Hlen.
  - destruct s; [constructor|cbn in Hlen; lia].
  - rewrite findall_symbols_eq.
    destruct s as [|c1 [|c2 s2]]; cbn [String.length] in Hlen; scan_step IH.
Qed.

Lemma is_digit_value (c : ascii) :
  is_digit c = true → 0 ≤ Z.of_N (N_of_ascii c) - 48 ≤ 9.
Proof.
  unfold is_digit. intros [H1 H2]%andb_true_iff. apply N.leb_le in H1, H2. lia.
Qed.

(** X1. Every number that [get_number_symbol] extracts lies between 0 and
    999: a run of more than three digits is cut into several numbers. *)
Theorem X1_numbers_at_most_three_digits (item : string) :
  Forall (λ x, 0 ≤ x ≤ 999) (get_number_symbol item).1.
Proof.
  unfold get_number_symbol. cbn [fst]. apply Forall_fmap.
  apply findall_digits_Forall; intros; cbn; unfold py_int; cbn [int_from];
    repeat match goal with
           | H : is_digit _ = true |- _ => apply is_digit_value in H
           end; lia.
Qed.

(** X2. Every symbol that [get_number_symbol] extracts is one capital
    letter, or a capital letter followed by one small letter. *)
Theorem X2_symbols_are_capitalised (item : string) :
  Forall (λ t, ∃ u, is_upper u = true ∧
               (t = String u EmptyString ∨
                ∃ l, is_lower l = true ∧ t = String u (String l EmptyString)))
         (get_number_symbol item).2.
Proof.
  unfold get_number_symbol. cbn [snd].
  apply findall_symbols_Forall; intros; eauto 10.
Qed.

(** ** The molecule split and the evaluation *)


(** X4. Whenever [evaluate_expr] returns its four lists, there are as many
    multiplicities as mass numbers and as many proton numbers as symbols,
    and the symbols are those of the scan, in order. *)
Theorem X4_evaluate_expr_lengths (expr : string) (sym : list string)
    (m a z : list Z) :
  evaluate_expr expr false = Ok (sym, m, a, z) →
  length m = length a ∧ length z = length sym ∧
  sym = (get_number_symbol expr).2.
Proof.
  intros H. pose proof (evaluate_expr_lists_inv _ _ _ _ _ H) as [Hd Hz].
  split; [exact (decompose_lengths _ _ _ _ Hd)|].
  split; [exact (mapM_length _ _ _ Hz)|].
  exact (decompose_symbols _ _ _ _ Hd).
Qed.

Lemma X4_evaluate_expr_lengths_witness :
  length [1; 1; 1] = length [1; 1; 16] ∧
  length [1; 1; 8] = length ["H"; "H"; "O"] ∧
  ["H"; "H"; "O"] = (get_number_symbol "H1H1O16").2.
Proof.
  apply (X4_evaluate_expr_lengths "H1H1O16" ["H"; "H"; "O"] [1; 1; 1]
           [1; 1; 16] [1; 1; 8]).
  vm_compute. reflexivity.
Defined.

Lemma mapM_getitem_Ok (sym : list string) :
  Forall (λ s, is_Some (symbols !! s)) sym →
  ∃ z, mapM (getitem symbols) sym = Ok z.
Proof.
  induction 1 as [|s sym [p Hp] _ [z IH]]; [exists []; reflexivity|].
  exists (p :: z). rewrite mapM_cons, (getitem_Ok _ _ Hp), bind_Ok, IH.
  reflexivity.
Qed.

(** X5. An expression without a colon evaluates to a result, in either
    view, exactly when every symbol of the scan is a key of the symbol
    table; no count of numbers makes it fail. *)
Theorem X5_colon_free_evaluates_iff_known (expr : string) (flag : bool) :
  char_in ":" expr = false →
  (∃ v, evaluate_expr expr flag = Ok v) ↔
  Forall (λ s, is_Some (symbols !! s)) (get_number_symbol expr).2.
Proof.
  intros Hcolon. rewrite evaluate_expr_decompose. unfold decompose.
  rewrite Hcolon. unfold get_number_symbol. cbn [snd]. rewrite bind_Ok. split.
  - intros [v Hv]. apply bind_Ok_inv in Hv as (z & Hz & _).
    apply mapM_Ok_Forall2 in Hz.
    induction Hz as [|s p sym z' Hs _ IH]; constructor; [|exact IH].
    unfold getitem in Hs. destruct (symbols !! s); [eauto|discriminate].
  - intros [z Hz]%mapM_getitem_Ok. rewrite Hz, bind_Ok.
    destruct flag; eauto.
Qed.

Lemma X5_colon_free_evaluates_iff_known_witness :
  (∃ v, evaluate_expr "H1H1O16" false = Ok v) ↔
  Forall (λ s, is_Some (symbols !! s)) (get_number_symbol "H1H1O16").2.
Proof.
  apply (X5_colon_free_evaluates_iff_known "H1H1O16" false). reflexivity.
Defined.

(** ** When [get_ame_mass] returns *)

Lemma for_loop_Ok_steps {A St} (body : St → A → result St) (l : list A)
    (s s' : St) (x : A) :
  for_loop body l s = Ok s' → x ∈ l → ∃ s1 s2, body s1 x = Ok s2.
Proof.
  revert s. induction l as [|y l IH]; intros s Hloop Hx; [inversion Hx|].
  cbn [for_loop] in Hloop. apply bind_Ok_inv in Hloop as (s1 & Hy & Hloop).
  apply elem_of_cons in Hx as [->|Hx]; eauto.
Qed.

Lemma Forall_exists_Forall2 {A B} (P : A → B → Prop) (l : list A) :
  Forall (λ x, ∃ y, P x y) l → ∃ k, Forall2 P l k.
Proof.
  induction 1 as [|x l [y Hy] _ [k IH]]; [exists []; constructor|].
  exists (y :: k). constructor; assumption.
Qed.

(** A step of the second loop that succeeds has read the first row of its
    constituent. *)
Lemma accumulate_step_Ok_first_row (df : DataFrame) (label : list string)
    (m a : list Z) (acc acc' : R * R) (i : nat) (l : string) (x : Z) :
  let idx := zip_with (λ l x, index_tolist (el_a_cond l x) df) label a in
  accumulate_step df m idx acc i = Ok acc' →
  label !! i = Some l → a !! i = Some x →
  is_Some (first_row df l x).
Proof.
  intros idx Hstep Hl Hx. unfold accumulate_step in Hstep.
  apply bind_Ok_inv in Hstep as (mul & _ & Hstep).
  apply bind_Ok_inv in Hstep as (labels & Hlabels & Hstep).
  apply bind_Ok_inv in Hstep as (j & Hj & Hstep).
  apply bind_Ok_inv in Hstep as (r & Hr & _).
  assert (idx !! i = Some (index_tolist (el_a_cond l x) df)) as Hidx.
  { unfold idx. apply lookup_zip_with_Some. eauto. }
  unfold index in Hlabels. rewrite Hidx in Hlabels. injection Hlabels as <-.
  unfold index in Hj. unfold first_row.
  destruct (index_tolist (el_a_cond l x) df) as [|j' rest]; [discriminate|].
  cbn in Hj. injection Hj as ->. cbn. unfold at_label in Hr.
  destruct (df !! j); [eauto|discriminate].
Qed.

(** X6. [get_ame_mass] returns a result exactly when the expression
    evaluates, it has at least as many mass numbers as symbols, and each
    pair (symbol, mass number) has a row in the table. *)
Theorem X6_get_ame_mass_returns_iff_resolved (df : DataFrame) (el_expr : string) :
  (∃ out t, get_ame_mass df el_expr = (out, Ok t)) ↔
  ∃ label m a z rows,
    evaluate_expr el_expr false = Ok (label, m, a, z) ∧
    (length label ≤ length a)%nat ∧
    Forall2 (λ lx r, first_row df lx.1 lx.2 = Some r) (zip label a) rows.
Proof.
  split.
  - intros (out & t & H). unfold get_ame_mass in H.
    destruct (evaluate_expr el_expr false) as [[[[label m] a] z]|e] eqn:Heval;
      [|rewrite io_bind_lift_Raise in H; discriminate].
    rewrite io_bind_lift_Ok in H. cbv beta iota zeta in H.
    destruct (lookup_rows df label a) as [idx|e] eqn:Hidx;
      [|rewrite io_bind_lift_Raise in H; discriminate].
    apply lookup_rows_Ok_inv in Hidx as [Hle ->].
    rewrite io_bind_lift_Ok in H.
    exists label, m, a, z.
    enough (∃ rows, Forall2 (λ lx r, first_row df lx.1 lx.2 = Some r)
                            (zip label a) rows) as [rows Hrows] by eauto.
    apply Forall_exists_Forall2, Forall_lookup. intros i [l x] Hlx.
    apply lookup_zip_with_Some in Hlx as (l' & x' & Heq & Hl & Hx).
    injection Heq as <- <-. cbn [fst snd].
    destruct (zip_with _ label a) as [|labels idx'] eqn:Hzip.
    { apply (f_equal length) in Hzip. rewrite length_zip_with in Hzip.
      apply lookup_lt_Some in Hl. cbn in Hzip. lia. }
    rewrite <- Hzip in H.
    destruct (for_loop _ _ _) as [acc|e] eqn:Hloop;
      [|rewrite io_bind_lift_Raise in H; discriminate].
    destruct (for_loop_Ok_steps _ _ _ _ i Hloop) as (s1 & s2 & Hstep).
    { rewrite py_range_1. apply elem_of_seq. rewrite length_zip_with.
      apply lookup_lt_Some in Hl. lia. }
    destruct (accumulate_step_Ok_first_row _ _ _ _ _ _ _ _ _ Hstep Hl Hx)
      as [r Hr].
    eauto.
  - intros (label & m & a & z & rows & Heval & Hle & Hrows).
    rewrite (get_ame_mass_resolved df _ _ _ _ _ rows Heval (conj Hle Hrows)).
    eauto.
Qed.

(** X7. When every constituent has a row, the mass returned is the sum of
    multiplicity * recordMass over the constituents. *)
Theorem X7_total_mass_is_weighted_sum (df : DataFrame) (el_expr : string)
    (label : list string) (m a z : list Z) (rows : list row) :
  evaluate_expr el_expr false = Ok (label, m, a, z) →
  resolved df label a rows →
  ∃ out sym unc ta tz tn q,
    get_ame_mass df el_expr
    = (out, Ok (sym,
                Rsum (zip_with (λ mul r, IZR mul * col_ame_tot r)%R m rows),
                unc, ta, tz, tn, q)).
Proof.
  intros Heval Hres.
  rewrite (get_ame_mass_resolved df _ _ _ _ _ _ Heval Hres), foldl_accumulate.
  cbn [fst snd]. rewrite !Rplus_0_l. eauto 10.
Qed.

Lemma X7_total_mass_is_weighted_sum_witness :
  ∃ out sym unc ta tz tn q,
    get_ame_mass small_table "H1H1O16"
    = (out, Ok (sym,
                Rsum (zip_with (λ mul r, IZR mul * col_ame_tot r)%R
                               [1; 1; 1] [row_H1; row_H1; row_O16]),
                unc, ta, tz, tn, q)).
Proof.
  apply (X7_total_mass_is_weighted_sum small_table "H1H1O16"
           ["H"; "H"; "O"] [1; 1; 1] [1; 1; 16] [1; 1; 8]
           [row_H1; row_H1; row_O16]).
  - vm_compute. reflexivity.
  - split; [vm_compute; lia|]. repeat constructor.
Defined.

(** X8. The notice of [get_ame_mass] is printed exactly when the
    expression evaluates to no symbol at all; the result is then a mass 0
    with uncertainty 0, Z = 0 and N = A. In every other case, a raised
    exception included, nothing is printed. *)
Theorem X8_notice_iff_no_symbol (df : DataFrame) (el_expr : string) :
  match evaluate_expr el_expr false with
  | Ok ([], m, a, _) =>
    get_ame_mass df el_expr
    = ([not_found_message],
       Ok (EmptyString, 0%R, 0%R, py_sum (zip_with Z.mul a m), 0,
           py_sum (zip_with Z.mul a m), 1))
  | _ => (get_ame_mass df el_expr).1 = []
  end.
Proof.
  destruct (evaluate_expr el_expr false) as [[[[[|l label] m] a] z]|e] eqn:Heval.
  - pose proof (evaluate_expr_lists_inv _ _ _ _ _ Heval) as [_ Hz].
    rewrite mapM_nil in Hz. injection Hz as <-.
    rewrite (get_ame_mass_resolved df _ _ _ _ _ [] Heval);
      [|split; [cbn; lia|constructor]].
    rewrite foldl_accumulate. cbn [fst snd zip_with Rsum foldr join py_sum].
    rewrite !zip_with_nil_r. cbn [Rsum foldr].
    rewrite !Rplus_0_l, sqrt_0, Z.sub_0_r. reflexivity.
  - unfold get_ame_mass. rewrite Heval, io_bind_lift_Ok. cbv beta iota zeta.
    destruct (lookup_rows df (l :: label) a) as [idx|e] eqn:Hidx;
      [|rewrite io_bind_lift_Raise; reflexivity].
    apply lookup_rows_Ok_inv in Hidx as [Hle ->]. rewrite io_bind_lift_Ok.
    destruct a as [|x a]; [cbn in Hle; lia|]. cbn [zip_with].
    destruct (for_loop _ _ _) as [[mass unc]|e];
      [rewrite io_bind_lift_Ok|rewrite io_bind_lift_Raise]; reflexivity.
  - unfold get_ame_mass. rewrite Heval, io_bind_lift_Raise. reflexivity.
Qed.

(** X9. An expression with more symbols than mass numbers, a bare symbol
    for one, makes [get_ame_mass] raise an [IndexError] whatever the table
    holds. *)
Theorem X9_more_symbols_than_numbers (df : DataFrame) (el_expr : string)
    (label : list string) (m a z : list Z) :
  evaluate_expr el_expr false = Ok (label, m, a, z) →
  (length a < length label)%nat →
  get_ame_mass df el_expr = ([], Raise IndexError).
Proof.
  intros Heval Hlt. unfold get_ame_mass.
  rewrite Heval, io_bind_lift_Ok. cbv beta iota zeta.
  rewrite lookup_rows_Raise by exact Hlt. reflexivity.
Qed.

Lemma X9_more_symbols_than_numbers_witness :
  get_ame_mass small_table "H" = ([], Raise IndexError).
Proof.
  apply (X9_more_symbols_than_numbers small_table "H" ["H"] [] [] [1]).
  - vm_compute. reflexivity.
  - vm_compute. lia.
Defined.

(** ** The exceptions of [get_ame_mass] *)

Lemma mapM_only_IndexError {A B} (f : A → result B) (l : list A) (e : exn) :
  (∀ y, (∃ b, f y = Ok b) ∨ f y = Raise IndexError) →
  mapM f l = Raise e → e = IndexError.
Proof.
  intros Hf. induction l as [|y l IH]; [discriminate|].
  rewrite mapM_cons.
  destruct (Hf y) as [[b ->] | -> ]; [|rewrite bind_Raise; congruence].
  rewrite bind_Ok. destruct (mapM f l) as [k|e']; [discriminate|].
  rewrite bind_Raise. intros [= <-]. auto.
Qed.

Lemma for_loop_only_IndexError {A St} (body : St → A → result St) (l : list A)
    (s : St) (e : exn) :
  (∀ s y, (∃ s', body s y = Ok s') ∨ body s y = Raise IndexError) →
  for_loop body l s = Raise e → e = IndexError.
Proof.
  intros Hb. revert s. induction l as [|y l IH]; intros s; [discriminate|].
  cbn [for_loop].
  destruct (Hb s y) as [[s' ->] | -> ]; [|rewrite bind_Raise; congruence].
  rewrite bind_Ok. apply IH.
Qed.

Lemma index_only_IndexError {A} (l : list A) (i : nat) :
  (∃ x, index l i = Ok x) ∨ index l i = Raise IndexError.
Proof. destruct (index_cases l i) as [(x & _ & ->) | -> ]; eauto. Qed.

Lemma get_molecule_info_only_IndexError (expr : string) (e : exn) :
  get_molecule_info expr = Raise e → e = IndexError.
Proof.
  unfold get_molecule_info. destruct (negb _); [discriminate|].
  destruct (get_number_symbol expr) as [tmp_nbrs sym].
  destruct (_ <? _)%nat; [|discriminate].
  destruct (mapM (index tmp_nbrs) (py_range 0 _ 2)) as [multi|e'] eqn:Hmulti.
  - rewrite bind_Ok.
    destruct (mapM (index tmp_nbrs) (py_range 1 _ 2)) as [a|e'] eqn:Ha;
      [discriminate|].
    intros [= <-]. eapply mapM_only_IndexError; [|exact Ha].
    apply index_only_IndexError.
  - intros [= <-]. eapply mapM_only_IndexError; [|exact Hmulti].
    apply index_only_IndexError.
Qed.

Lemma mapM_getitem_Raise (sym : list string) (e : exn) :
  mapM (getitem symbols) sym = Raise e →
  ∃ s, e = KeyError (KStr s) ∧ s ∈ sym ∧ symbols !! s = None.
Proof.
  induction sym as [|t sym IH]; [discriminate|].
  rewrite mapM_cons. destruct (symbols !! t) as [p|] eqn:Ht.
  - rewrite (getitem_Ok _ _ Ht), bind_Ok.
    destruct (mapM (getitem symbols) sym) as [k|e'].
    + rewrite bind_Ok. discriminate.
    + rewrite bind_Raise. intros [= <-].
      destruct (IH eq_refl) as (s & -> & Hs & Hnone).
      exists s. repeat split; [by right|done].
  - replace (getitem symbols t) with (@Raise Z (KeyError (KStr t)))
      by (unfold getitem; by rewrite Ht).
    rewrite bind_Raise. intros [= <-].
    exists t. repeat split; [by left|done].
Qed.

(** The exceptions of [evaluate_expr]: the [KeyError] of a symbol of the
    scan that is not in the table, or an [IndexError]. *)
Lemma evaluate_expr_Raise (expr : string) (flag : bool) (e : exn) :
  evaluate_expr expr flag = Raise e →
  e = IndexError ∨
  ∃ s, e = KeyError (KStr s) ∧ s ∈ findall_symbols expr ∧ symbols !! s = None.
Proof.
  rewrite evaluate_expr_decompose.
  destruct (decompose expr) as [[[m a] sym]|e'] eqn:Hd.
  - rewrite bind_Ok. rewrite <- (decompose_symbols _ _ _ _ Hd).
    destruct (mapM (getitem symbols) sym) as [z|e'] eqn:Hz.
    + rewrite bind_Ok. destruct flag; discriminate.
    + intros [= <-]. right. exact (mapM_getitem_Raise _ _ Hz).
  - intros [= <-]. left. unfold decompose in Hd.
    destruct (char_in ":" expr).
    + exact (get_molecule_info_only_IndexError _ _ Hd).
    + destruct (get_number_symbol expr). discriminate.
Qed.

(** X10. A [KeyError] out of [get_ame_mass] always names a symbol of the
    scanned expression that is not a key of the symbol table: reading the
    table never raises one. *)
Theorem X10_key_error_names_unknown_symbol (df : DataFrame) (el_expr : string)
    (out : list string) (key : pykey) :
  get_ame_mass df el_expr = (out, Raise (KeyError key)) →
  ∃ s, key = KStr s ∧ s ∈ (get_number_symbol el_expr).2 ∧ symbols !! s = None.
Proof.
  unfold get_ame_mass.
  destruct (evaluate_expr el_expr false) as [[[[label m] a] z]|e] eqn:Heval.
  - rewrite io_bind_lift_Ok. cbv beta iota zeta.
    destruct (lookup_rows df label a) as [idx|e] eqn:Hidx.
    + apply lookup_rows_Ok_inv in Hidx as [Hle ->]. rewrite io_bind_lift_Ok.
      destruct (zip_with _ label a) as [|labels idx'] eqn:Hzip; [discriminate|].
      rewrite <- Hzip.
      destruct (for_loop _ _ _) as [[mass unc]|e] eqn:Hloop;
        [rewrite io_bind_lift_Ok; discriminate|].
      apply for_loop_only_IndexError in Hloop;
        [subst e; rewrite io_bind_lift_Raise; discriminate|].
      intros s y. apply accumulate_step_cases.
    + destruct (decide (length label ≤ length a)%nat) as [Hle|Hgt].
      * rewrite lookup_rows_Ok in Hidx by exact Hle. discriminate.
      * rewrite lookup_rows_Raise in Hidx by lia. injection Hidx as <-.
        rewrite io_bind_lift_Raise. discriminate.
  - rewrite io_bind_lift_Raise. intros [= _ ->].
    destruct (evaluate_expr_Raise _ _ _ Heval) as [?|(s & Hs & Hin & Hnone)];
      [discriminate|].
    injection Hs as ->. exists s. auto.
Qed.

Lemma X10_key_error_names_unknown_symbol_witness :
  ∃ s, KStr "Zz" = KStr s ∧ s ∈ (get_number_symbol "99Zz").2 ∧ symbols !! s = None.
Proof.
  apply (X10_key_error_names_unknown_symbol small_table "99Zz" []).
  vm_compute. reflexivity.
Defined.

(** ** Rows added at the end of the table *)

Lemma labels_from_app (k : nat) (cond : row → bool) (df df' : DataFrame) :
  (labels_from k cond (df ++ df')
   = labels_from k cond df ++ labels_from (k + length df) cond df')%list.
Proof.
  revert k. induction df as [|r df IH]; intros k; cbn [app labels_from length].
  - rewrite Nat.add_0_r. reflexivity.
  - rewrite IH, Nat.add_succ_r. destruct (cond r); reflexivity.
Qed.

Lemma first_row_app (df df' : DataFrame) (el : string) (a : Z) (r : row) :
  first_row df el a = Some r → first_row (df ++ df')%list el a = Some r.
Proof.
  intros H. pose proof H as (j & rest & Hj & Hdf)%first_row_label.
  unfold first_row, index_tolist in *. rewrite labels_from_app.
  unfold index_tolist in Hj. rewrite Hj. cbn.
  apply lookup_app_l_Some. exact Hdf.
Qed.

(** X11. Rows appended to the table do not change what [get_ame_mass]
    returns for an expression whose constituents all had a row: the first
    match of each constituent is still the first. *)
Theorem X11_get_ame_mass_stable_under_append (df df' : DataFrame)
    (el_expr : string) (label : list string) (m a z : list Z) (rows : list row) :
  evaluate_expr el_expr false = Ok (label, m, a, z) →
  resolved df label a rows →
  get_ame_mass (df ++ df')%list el_expr = get_ame_mass df el_expr.
Proof.
  intros Heval Hres.
  assert (resolved (df ++ df')%list label a rows) as Hres'.
  { destruct Hres as [Hle Hrows]. split; [exact Hle|].
    eapply Forall2_impl; [exact Hrows|].
    intros [l x] r. apply first_row_app. }
  rewrite (get_ame_mass_resolved _ _ _ _ _ _ _ Heval Hres).
  rewrite (get_ame_mass_resolved _ _ _ _ _ _ _ Heval Hres').
  reflexivity.
Qed.

Lemma X11_get_ame_mass_stable_under_append_witness :
  get_ame_mass (small_table ++ [row_H1; row_n])%list "2H1:1O16"
  = get_ame_mass small_table "2H1:1O16".
Proof.
  apply (X11_get_ame_mass_stable_under_append small_table [row_H1; row_n]
           "2H1:1O16" ["H"; "O"] [2; 1] [1; 16] [1; 8] [row_H1; row_O16]).
  - vm_compute. reflexivity.
  - split; [vm_compute; lia|]. repeat constructor.
Defined.

(** ** Ion masses *)

Lemma io_bind_Ok {A B} (out : list string) (a : A) (f : A → io B) :
  ((out, Ok a) ≫= f) = ((out ++ (f a).1)%list, (f a).2).
Proof. unfold mbind, io_bind. destruct (f a). reflexivity. Qed.

(** The uncertainty that [get_ame_mass] returns is a square root. *)
Lemma get_ame_mass_unc_nonneg (df : DataFrame) (el_expr : string)
    (out : list string) (sym : string) (mass unc : R) (ta tz tn q : Z) :
  get_ame_mass df el_expr = (out, Ok (sym, mass, unc, ta, tz, tn, q)) →
  (0 <= unc)%R.
Proof.
  unfold get_ame_mass.
  destruct (evaluate_expr el_expr false) as [[[[label m] a] z]|e];
    [|rewrite io_bind_lift_Raise; discriminate].
  rewrite io_bind_lift_Ok. cbv beta iota zeta.
  destruct (lookup_rows df label a) as [idx|e];
    [|rewrite io_bind_lift_Raise; discriminate].
  rewrite io_bind_lift_Ok. intros H.
  destruct idx as [|labels idx].
  - injection H as _ _ _ <- _ _ _ _. apply sqrt_pos.
  - destruct (for_loop _ _ _) as [[mass' unc']|e];
      [|rewrite io_bind_lift_Raise in H; discriminate].
    rewrite io_bind_lift_Ok in H. injection H as _ _ _ <- _ _ _ _.
    apply sqrt_pos.
Qed.

(** X12. At charge 0 the ion mass and its uncertainty are the atomic mass
    and its uncertainty as [get_ame_mass] returns them, and what is
    printed is the same. *)
Theorem X12_ion_mass_at_charge_0 (df : DataFrame) (el_symbol : string)
    (out : list string) (sym : string) (mass unc : R) (ta tz tn q : Z) :
  get_ame_mass df el_symbol = (out, Ok (sym, mass, unc, ta, tz, tn, q)) →
  get_ion_mass df el_symbol 0 = (out, Ok (mass, unc)).
Proof.
  intros H. pose proof (get_ame_mass_unc_nonneg _ _ _ _ _ _ _ _ _ _ H) as Hunc.
  unfold get_ion_mass. rewrite H, io_bind_Ok. cbn [fst snd mret io_ret].
  rewrite app_nil_r. do 3 f_equal.
  - lra.
  - replace (unc ^ 2 + (0 * me_unc) ^ 2)%R with (unc ^ 2)%R by lra.
    apply sqrt_pow2. exact Hunc.
Qed.

Lemma X12_ion_mass_at_charge_0_witness :
  get_ion_mass small_table "2H1:1O16" 0
  = ([], Ok (fst (accumulate_rows [2; 1] [row_H1; row_O16] (0, 0)%R),
             sqrt (snd (accumulate_rows [2; 1] [row_H1; row_O16] (0, 0)%R)))).
Proof.
  apply (X12_ion_mass_at_charge_0 small_table "2H1:1O16" [] "HO" _ _ 18 9 9 1).
  vm_compute. reflexivity.
Defined.

(** X13. At any charge the ion mass is the atomic mass less
    charge * 548.57990946, and its uncertainty, whose square is the sum of
    the squares of the atomic uncertainty and of charge * 0.00000022, is
    never below the atomic uncertainty. *)
Theorem X13_ion_mass_and_uncertainty (df : DataFrame) (el_symbol : string)
    (charge : Z) (out : list string) (sym : string) (mass unc : R)
    (ta tz tn q : Z) :
  get_ame_mass df el_symbol = (out, Ok (sym, mass, unc, ta, tz, tn, q)) →
  ∃ unc_ion,
    get_ion_mass df el_symbol charge
    = (out, Ok ((mass - IZR charge * 548.57990946)%R, unc_ion)) ∧
    (unc_ion ^ 2 = unc ^ 2 + (IZR charge * 0.00000022) ^ 2)%R ∧
    (unc <= unc_ion)%R.
Proof.
  intros H. pose proof (get_ame_mass_unc_nonneg _ _ _ _ _ _ _ _ _ _ H) as Hunc.
  exists (sqrt (unc ^ 2 + (IZR charge * me_unc) ^ 2)).
  assert (0 <= unc ^ 2 + (IZR charge * me_unc) ^ 2)%R as Hpos by nra.
  repeat split.
  - unfold get_ion_mass. rewrite H, io_bind_Ok. cbn [fst snd mret io_ret].
    rewrite app_nil_r. reflexivity.
  - rewrite <- Rsqr_pow2, Rsqr_sqrt by exact Hpos. reflexivity.
  - rewrite <- (sqrt_pow2 unc Hunc) at 1. apply sqrt_le_1_alt. nra.
Qed.

Lemma X13_ion_mass_and_uncertainty_witness :
  ∃ unc_ion,
    get_ion_mass small_table "2H1:1O16" 1
    = ([], Ok ((fst (accumulate_rows [2; 1]%Z [row_H1; row_O16] (0, 0)%R)
                - IZR 1 * 548.57990946)%R, unc_ion)) ∧
    (unc_ion ^ 2
     = sqrt (snd (accumulate_rows [2; 1]%Z [row_H1; row_O16] (0, 0)%R)) ^ 2
       + (IZR 1 * 0.00000022) ^ 2)%R ∧
    (sqrt (snd (accumulate_rows [2; 1]%Z [row_H1; row_O16] (0, 0)%R))
     <= unc_ion)%R.
Proof.
  apply (X13_ion_mass_and_uncertainty small_table "2H1:1O16" 1 [] "HO" _ _
           18 9 9 1).
  vm_compute. reflexivity.
Defined.

(** ** Mass excess *)

(** X14. The mass excess of the mass that the isomer conversion gives for
    a mass excess, at the same mass number, is that mass excess again. *)
Theorem X14_mass_excess_of_isomer_amass (ex unc a : R) :
  (mass_excess (isomer_amass ex a) unc a).1 = ex.
Proof.
  unfold isomer_amass, mass_excess. cbn [fst]. pose proof scale_neq_0.
  field. assumption.
Qed.

(** ** [add_entry_table] *)

Lemma add_entry_table_inv (df df' : DataFrame) (expr : string) (out : list string) :
  add_entry_table df expr = (out, Ok df') →
  ∃ sym mass unc ta tz tn q,
    get_ame_mass df expr = (out, Ok (sym, mass, unc, ta, tz, tn, q)) ∧
    df' = (df ++ [Row tn tz ta expr
                      (mass_excess mass unc (IZR ta)).1
                      (mass_excess mass unc (IZR ta)).2
                      mass unc q])%list.
Proof.
  unfold add_entry_table.
  destruct (get_ame_mass df expr) as [out' [[[[[[[sym mass] unc] ta] tz] tn] q]|e]];
    [|discriminate].
  rewrite io_bind_Ok. cbn [fst snd mret io_ret mass_excess].
  rewrite app_nil_r. intros [= <- <-]. eauto 10.
Qed.

(** X15. When [add_entry_table] succeeds the new table is the old one
    with one row more at its end. That row is named by the whole
    expression, has charge 1, N + Z = A, a mass uncertainty that is not
    negative, and a mass excess and its uncertainty that are those of its
    own mass: ME = (mass * 1e-6 - A) * 931494.061. *)
Theorem X15_add_entry_table_appends_a_consistent_row (df df' : DataFrame)
    (expr : string) (out : list string) :
  add_entry_table df expr = (out, Ok df') →
  ∃ r, df' = (df ++ [r])%list ∧
       col_EL r = expr ∧ col_charge r = 1 ∧
       col_N r + col_Z r = col_A r ∧
       (0 <= col_amunc r)%R ∧
       col_ME r = ((col_ame_tot r * 1e-6 - IZR (col_A r)) * 931494.061)%R ∧
       col_MEunc r = (col_amunc r * 1e-6 * 931494.061)%R.
Proof.
  intros (sym & mass & unc & ta & tz & tn & q & Hget & ->)%add_entry_table_inv.
  pose proof (get_ame_mass_unc_nonneg _ _ _ _ _ _ _ _ _ _ Hget) as Hunc.
  apply get_ame_mass_Ok_inv in Hget as (label & m & a & z & _ & _ & _ & _ & -> & ->).
  eexists. split; [reflexivity|]. cbn. repeat split; [lia|exact Hunc].
Qed.

Lemma X15_add_entry_table_appends_a_consistent_row_witness :
  ∃ df',
    add_entry_table small_table "2H1:1O16" = ([], Ok df') ∧
    ∃ r, df' = (small_table ++ [r])%list ∧
         col_EL r = "2H1:1O16" ∧ col_charge r = 1 ∧
         col_N r + col_Z r = col_A r ∧
         (0 <= col_amunc r)%R ∧
         col_ME r = ((col_ame_tot r * 1e-6 - IZR (col_A r)) * 931494.061)%R ∧
         col_MEunc r = (col_amunc r * 1e-6 * 931494.061)%R.
Proof.
  eexists. split; [vm_compute; reflexivity|].
  apply (X15_add_entry_table_appends_a_consistent_row small_table _
           "2H1:1O16" []).
  vm_compute. reflexivity.
Defined.

Lemma is_upper_not_digit (c : ascii) : is_upper c = true → is_digit c = false.
Proof.
  unfold is_digit, is_upper. intros [H1 H2]%andb_true_iff.
  apply N.leb_le in H1, H2. apply andb_false_iff. right. apply N.leb_gt. lia.
Qed.

Lemma is_lower_not_digit (c : ascii) : is_lower c = true → is_digit c = false.
Proof.
  unfold is_digit, is_lower. intros [H1 H2]%andb_true_iff.
  apply N.leb_le in H1, H2. apply andb_false_iff. right. apply N.leb_gt. lia.
Qed.

Lemma is_upper_not_colon (c : ascii) : is_upper c = true → Ascii.eqb ":" c = false.
Proof.
  intros H. destruct (Ascii.eqb_spec ":" c) as [<-|]; [discriminate|reflexivity].
Qed.

Lemma is_lower_not_colon (c : ascii) : is_lower c = true → Ascii.eqb ":" c = false.
Proof.
  intros H. destruct (Ascii.eqb_spec ":" c) as [<-|]; [discriminate|reflexivity].
Qed.

Lemma findall_symbols_shaped (s : string) : Forall symbol_shaped (findall_symbols s).
Proof. apply findall_symbols_Forall; intros; unfold symbol_shaped; eauto 10. Qed.

(** A string that is a symbol of the scan: no number, one symbol, itself. *)
Lemma decompose_symbol_shaped (t : string) :
  symbol_shaped t → decompose t = Ok ([], [], [t]).
Proof.
  intros (u & Hu & [->|(l & Hl & ->)]); unfold decompose, get_number_symbol;
    cbn [char_in findall_digits findall_symbols];
    rewrite ?(is_upper_not_colon u Hu), ?(is_upper_not_digit u Hu), ?Hu.
  - reflexivity.
  - rewrite (is_lower_not_colon l Hl), (is_lower_not_digit l Hl), Hl.
    reflexivity.
Qed.

(** ... so [get_ame_mass] has no result for it: it has a symbol and no
    mass number. *)
Lemma get_ame_mass_symbol_shaped (df : DataFrame) (t : string) (out : list string)
    (v : string * R * R * Z * Z * Z * Z) :
  symbol_shaped t → get_ame_mass df t ≠ (out, Ok v).
Proof.
  intros Ht%decompose_symbol_shaped H.
  destruct v as [[[[[[sym mass] unc] ta] tz] tn] q]. pose proof H as H'.
  apply get_ame_mass_Ok_inv in H' as (label & m & a & z & Heval & _).
  pose proof (evaluate_expr_lists_inv _ _ _ _ _ Heval) as [Hd _].
  rewrite Ht in Hd. injection Hd as <- <- <-.
  unfold get_ame_mass in H. rewrite Heval, io_bind_lift_Ok in H.
  cbv beta iota zeta in H. rewrite lookup_rows_Raise in H by (cbn; lia).
  discriminate.
Qed.

Lemma mapM_ext_in {A B} (f g : A → result B) (l : list A) :
  (∀ x, x ∈ l → f x = g x) → mapM f l = mapM g l.
Proof.
  induction l as [|x l IH]; intros H; [reflexivity|].
  rewrite !mapM_cons, (H x) by (by left).
  rewrite IH; [reflexivity|]. intros y Hy. apply H. by right.
Qed.

Lemma for_loop_ext {A St} (body body' : St → A → result St) (l : list A) (s : St) :
  (∀ s x, body s x = body' s x) → for_loop body l s = for_loop body' l s.
Proof.
  intros H. revert s. induction l as [|x l IH]; intros s; [reflexivity|].
  cbn [for_loop]. rewrite H. destruct (body' s x) as [s'|e]; [|reflexivity].
  rewrite !bind_Ok. apply IH.
Qed.

(** A last row that does not satisfy the condition changes no label. *)
Lemma index_tolist_snoc (cond : row → bool) (df : DataFrame) (r : row) :
  cond r = false → index_tolist cond (df ++ [r])%list = index_tolist cond df.
Proof.
  intros H. unfold index_tolist. rewrite labels_from_app. cbn [labels_from].
  rewrite H. apply app_nil_r.
Qed.

(** A row whose name no scan can return is read by no call of
    [get_ame_mass]. *)
Lemma get_ame_mass_snoc (df : DataFrame) (r : row) (el_expr : string) :
  ¬ symbol_shaped (col_EL r) →
  get_ame_mass (df ++ [r])%list el_expr = get_ame_mass df el_expr.
Proof.
  intros Hr. unfold get_ame_mass.
  destruct (evaluate_expr el_expr false) as [[[[label m] a] z]|e] eqn:Heval;
    [|reflexivity].
  rewrite !io_bind_lift_Ok. cbv beta iota zeta.
  pose proof (evaluate_expr_lists_inv _ _ _ _ _ Heval) as [Hd _].
  apply decompose_symbols in Hd.
  assert (∀ l x, l ∈ label → el_a_cond l x r = false) as Hcond.
  { intros l x Hl. unfold el_a_cond. apply andb_false_iff. left.
    apply String.eqb_neq. intros Heq. apply Hr. rewrite Heq.
    pose proof (findall_symbols_shaped el_expr) as Hall.
    rewrite Forall_forall in Hall. apply Hall. rewrite <- Hd. exact Hl. }
  assert (lookup_rows (df ++ [r])%list label a = lookup_rows df label a) as ->.
  { unfold lookup_rows. apply mapM_ext_in. intros i _. unfold lookup_rows_body.
    destruct (index_cases label i) as [(l & Hl & ->) | -> ]; [|reflexivity].
    rewrite !bind_Ok.
    destruct (index_cases a i) as [(x & Hx & ->) | -> ]; [|reflexivity].
    rewrite !bind_Ok, index_tolist_snoc; [reflexivity|].
    apply Hcond. eapply list_elem_of_lookup_2. exact Hl. }
  destruct (lookup_rows df label a) as [idx|e] eqn:Hidx; [|reflexivity].
  apply lookup_rows_Ok_inv in Hidx as [Hle ->]. rewrite !io_bind_lift_Ok.
  set (idx := zip_with (λ l x, index_tolist (el_a_cond l x) df) label a).
  assert (∀ l s, for_loop (accumulate_step (df ++ [r])%list m idx) l s
                 = for_loop (accumulate_step df m idx) l s) as Hloop.
  { intros l0 s0. apply for_loop_ext. intros s i. unfold accumulate_step.
    destruct (index_cases m i) as [(mul & _ & ->) | -> ]; [|reflexivity].
    rewrite !bind_Ok.
    destruct (index_cases idx i) as [(ls & Hls & ->) | -> ]; [|reflexivity].
    rewrite !bind_Ok.
    destruct (index_cases ls 0) as [(j & Hj & ->) | -> ]; [|reflexivity].
    rewrite !bind_Ok.
    apply lookup_zip_with_Some in Hls as (l & x & Heq & _ & _). subst ls.
    assert (j < length df)%nat as Hlt.
    { apply list_elem_of_lookup_2, labels_from_bounds in Hj. lia. }
    unfold at_label.
    replace ((df ++ [r])%list !! j) with (df !! j)
      by (symmetry; apply lookup_app_l; exact Hlt).
    reflexivity. }
  clearbody idx. destruct idx as [|labels idx']; [reflexivity|].
  rewrite Hloop. reflexivity.
Qed.

(** X16. A row that [add_entry_table] has added is never read by
    [get_ame_mass]: after the call every expression gets what it got
    before. The row is named by its whole expression, and no expression
    for which [get_ame_mass] returns is a bare symbol. *)
Theorem X16_added_rows_are_not_read (df df' : DataFrame) (expr : string)
    (out : list string) (el_expr : string) :
  add_entry_table df expr = (out, Ok df') →
  get_ame_mass df' el_expr = get_ame_mass df el_expr.
Proof.
  intros (sym & mass & unc & ta & tz & tn & q & Hget & ->)%add_entry_table_inv.
  apply get_ame_mass_snoc. cbn [col_EL]. intros Hshape.
  exact (get_ame_mass_symbol_shaped _ _ _ _ Hshape Hget).
Qed.

Lemma X16_added_rows_are_not_read_witness :
  ∃ df',
    add_entry_table small_table "2H1:1O16" = ([], Ok df') ∧
    get_ame_mass df' "2H1:1O16" = get_ame_mass small_table "2H1:1O16".
Proof.
  eexists. split; [vm_compute; reflexivity|].
  apply (X16_added_rows_are_not_read small_table _ "2H1:1O16" []).
  vm_compute. reflexivity.
Defined.

(** ** [get_isobars] *)

Lemma labels_from_length (k : nat) (cond : row → bool) (df : DataFrame) :
  length (labels_from k cond df) = length (List.filter cond df).
Proof.
  revert k. induction df as [|r df IH]; intros k; [reflexivity|].
  cbn [labels_from List.filter]. destruct (cond r); cbn [length]; rewrite IH;
    reflexivity.
Qed.

(** The label at place [i] is the label of the row at place [i] among the
    rows that satisfy the condition. *)
Lemma labels_from_filter (k : nat) (cond : row → bool) (df : DataFrame)
    (i j : nat) :
  labels_from k cond df !! i = Some j →
  ∃ r, List.filter cond df !! i = Some r ∧ df !! (j - k)%nat = Some r ∧ (k ≤ j)%nat.
Proof.
  revert k i. induction df as [|r df IH]; intros k i; [discriminate|].
  cbn [labels_from List.filter]. destruct (cond r).
  - destruct i as [|i]; cbn [lookup list_lookup].
    + intros [= <-]. exists r. rewrite Nat.sub_diag. auto.
    + intros (r' & Hf & Hdf & Hle)%IH. exists r'. split; [exact Hf|].
      replace (j - k)%nat with (S (j - S k)) by lia. split; [exact Hdf|lia].
  - intros (r' & Hf & Hdf & Hle)%IH. exists r'. split; [exact Hf|].
    replace (j - k)%nat with (S (j - S k)) by lia. split; [exact Hdf|lia].
Qed.

(** The loop of [get_isobars] reads every label that [idx] holds, and
    finds the rows of that mass number in table order. *)
Lemma get_isobars_loop (df : DataFrame) (atomic_number : Z) :
  let idx := index_tolist (λ r, col_A r =? atomic_number) df in
  let isobars := List.filter (λ r, col_A r =? atomic_number) df in
  mapM (get_isobars_body df idx) (py_range 0 (length idx) 1)
  = Ok ((λ r, (col_EL r, col_ame_tot r, col_amunc r)) <$> isobars).
Proof.
  intros idx isobars.
  assert (length idx = length isobars) as Hlen by apply labels_from_length.
  rewrite py_range_1. set (ys := _ <$> isobars).
  replace (length idx) with (length ys)
    by (unfold ys; rewrite length_fmap; lia).
  apply mapM_seq_Ok. intros i y Hy. cbn [Nat.add].
  unfold ys in Hy. rewrite list_lookup_fmap in Hy.
  destruct (isobars !! i) as [r|] eqn:Hr; [|discriminate].
  injection Hy as <-.
  destruct (lookup_lt_is_Some_2 idx i) as [j Hj];
    [apply lookup_lt_Some in Hr; lia|].
  destruct (labels_from_filter _ _ _ _ _ Hj) as (r' & Hr' & Hdf & _).
  fold isobars in Hr'. rewrite Hr in Hr'. injection Hr' as <-.
  rewrite Nat.sub_0_r in Hdf. unfold get_isobars_body.
  rewrite (index_Ok _ _ _ Hj), bind_Ok. unfold at_label. rewrite Hdf.
  reflexivity.
Qed.

(** What [get_isobars] returns on a table, from the rows of that mass
    number. *)
Lemma get_isobars_filter (df : DataFrame) (atomic_number : Z) :
  let isobars := List.filter (λ r, col_A r =? atomic_number) df in
  get_isobars df atomic_number
  = (match isobars with [] => [no_isobars_message] | _ => [] end,
     Ok ((λ r, (col_EL r, col_ame_tot r, col_amunc r)) <$> isobars)).
Proof.
  intros isobars. unfold get_isobars.
  pose proof (get_isobars_loop df atomic_number) as Hloop. cbv zeta in Hloop.
  pose proof (labels_from_length 0 (λ r, col_A r =? atomic_number) df) as Hlen.
  fold (index_tolist (λ r, col_A r =? atomic_number) df) in Hlen.
  fold isobars in Hloop, Hlen.
  destruct (index_tolist _ df) as [|j idx'], isobars as [|r isobars'];
    try (cbn in Hlen; lia); [reflexivity|].
  rewrite Hloop. reflexivity.
Qed.

(** X17. [get_isobars] never raises: it returns the element, mass and mass
    uncertainty of every row of that mass number, in table order, and
    prints its notice exactly when there is no such row, returning then an
    empty array. *)
Theorem X17_get_isobars_lists_matching_rows (df : DataFrame) (atomic_number : Z) :
  let isobars := List.filter (λ r, col_A r =? atomic_number) df in
  get_isobars df atomic_number
  = (match isobars with [] => [no_isobars_message] | _ => [] end,
     Ok ((λ r, (col_EL r, col_ame_tot r, col_amunc r)) <$> isobars)).
Proof.
  intros isobars. unfold get_isobars.
  rewrite (get_isobars_loop df atomic_number). fold isobars.
  pose proof (labels_from_length 0 (λ r, col_A r =? atomic_number) df) as Hlen.
  fold (index_tolist (λ r, col_A r =? atomic_number) df) in Hlen.
  fold isobars in Hlen.
  destruct (index_tolist _ df) as [|j idx'], isobars as [|r isobars'];
    try (cbn in Hlen; lia); reflexivity.
Qed.

(** X18. After [add_entry_table] has added the row of an expression, the
    isobars of the mass number of that expression are those of before,
    followed by the expression with the mass and the uncertainty that
    [get_ame_mass] returned for it. *)
Theorem X18_added_row_is_an_isobar (df df' : DataFrame) (expr : string)
    (out : list string) (sym : string) (mass unc : R) (ta tz tn q : Z) :
  get_ame_mass df expr = (out, Ok (sym, mass, unc, ta, tz, tn, q)) →
  add_entry_table df expr = (out, Ok df') →
  ∃ out0 before,
    get_isobars df ta = (out0, Ok before) ∧
    get_isobars df' ta = ([], Ok (before ++ [(expr, mass, unc)])%list).
Proof.
  intros Hget (sym' & mass' & unc' & ta' & tz' & tn' & q' & Hget' & ->)%add_entry_table_inv.
  rewrite Hget in Hget'. injection Hget' as <- <- <- <- <- <- <-.
  rewrite !get_isobars_filter. cbv zeta.
  rewrite List.filter_app. cbn [List.filter col_A]. rewrite Z.eqb_refl.
  rewrite fmap_app. cbn [fmap list_fmap col_EL col_ame_tot col_amunc].
  do 2 eexists. split; [reflexivity|].
  destruct (List.filter _ df); reflexivity.
Qed.

Lemma X18_added_row_is_an_isobar_witness :
  ∃ df',
    add_entry_table small_table "1H:1H" = ([], Ok df') ∧
    ∃ out0 before,
      get_isobars small_table 2 = (out0, Ok before) ∧
      get_isobars df' 2
      = ([], Ok (before ++ [("1H:1H",
                             (accumulate_rows [1; 1] [row_H1; row_H1] (0, 0)%R).1,
                             sqrt (accumulate_rows [1; 1] [row_H1; row_H1]
                                                   (0, 0)%R).2)])%list).
Proof.
  eexists. split; [vm_compute; reflexivity|].
  apply (X18_added_row_is_an_isobar small_table _ "1H:1H" [] "HH" _ _ 2 2 0 1);
    vm_compute; reflexivity.
Defined.

(** ** [calc_isomer_mass] *)

(** X19. When no row of the table is named by the joined symbols of the
    expression with the sum of its mass numbers, [calc_isomer_mass] raises
    an [IndexError]; so it does for a molecule on a table of nuclides. *)
Theorem X19_isomer_of_missing_row (df : DataFrame) (el_id : string) (ex_erg : R)
    (sym : string) (m a z : Z) :
  evaluate_expr el_id true = Ok (sym, m, a, z) →
  first_row df sym a = None →
  calc_isomer_mass df el_id ex_erg = Raise IndexError.
Proof.
  intros Heval Hnone%first_row_None. unfold calc_isomer_mass.
  rewrite Heval, bind_Ok. cbv beta iota zeta. rewrite Hnone. reflexivity.
Qed.

Lemma X19_isomer_of_missing_row_witness :
  calc_isomer_mass small_table "1H:16O" 5 = Raise IndexError.
Proof.
  apply (X19_isomer_of_missing_row small_table "1H:16O" 5 "HO" 2 17 9).
  - vm_compute. reflexivity.
  - reflexivity.
Defined.

(** X20. When the row exists, the isomer row that [calc_isomer_mass]
    returns has the symbols followed by "^m" as its name, the same A and
    Z with N + Z = A, charge 1, both uncertainties 0, the mass excess of
    the row raised by the excitation energy, and a mass that exceeds the
    mass computed at excitation energy 0 by energy * 1e6 / 931494.061. *)
Theorem X20_isomer_row (df : DataFrame) (el_id : string) (ex_erg : R)
    (sym : string) (m a z : Z) (r : row) :
  evaluate_expr el_id true = Ok (sym, m, a, z) →
  first_row df sym a = Some r →
  ∃ r0 rx,
    calc_isomer_mass df el_id 0 = Ok r0 ∧
    calc_isomer_mass df el_id ex_erg = Ok rx ∧
    col_ame_tot rx = (col_ame_tot r0 + ex_erg * 1e6 / 931494.061)%R ∧
    col_ME rx = (col_ME r + ex_erg)%R ∧
    col_EL rx = sym ++ "^m" ∧
    col_A rx = a ∧ col_Z rx = z ∧ col_N rx + col_Z rx = col_A rx ∧
    col_MEunc rx = 0%R ∧ col_amunc rx = 0%R ∧ col_charge rx = 1.
Proof.
  intros Heval (j & rest & Hj & Hdf)%first_row_label.
  assert (∀ ex, calc_isomer_mass df el_id ex
                = Ok (Row (a - z) z a (sym ++ "^m") (col_ME r + ex) 0
                          (isomer_amass (col_ME r + ex) (IZR a)) 0 1)) as Hcalc.
  { intros ex. unfold calc_isomer_mass. rewrite Heval, bind_Ok.
    cbv beta iota zeta. rewrite Hj.
    rewrite (index_Ok (j :: rest) 0 j eq_refl), bind_Ok.
    unfold at_label. rewrite Hdf, bind_Ok. reflexivity. }
  do 2 eexists. split; [apply Hcalc|]. split; [apply Hcalc|].
  cbn [col_ame_tot col_ME col_EL col_A col_Z col_N col_MEunc col_amunc col_charge].
  repeat split; [|lia].
  unfold isomer_amass, scale. field. lra.
Qed.

Lemma X20_isomer_row_witness :
  ∃ r0 rx,
    calc_isomer_mass small_table "16O" 0 = Ok r0 ∧
    calc_isomer_mass small_table "16O" 6049.4 = Ok rx ∧
    col_ame_tot rx = (col_ame_tot r0 + 6049.4 * 1e6 / 931494.061)%R ∧
    col_ME rx = (col_ME row_O16 + 6049.4)%R ∧
    col_EL rx = "O" ++ "^m" ∧
    col_A rx = 16 ∧ col_Z rx = 8 ∧ col_N rx + col_Z rx = col_A rx ∧
    col_MEunc rx = 0%R ∧ col_amunc rx = 0%R ∧ col_charge rx = 1.
Proof.
  apply (X20_isomer_row small_table "16O" 6049.4 "O" 1 16 8 row_O16).
  - vm_compute. reflexivity.
  - reflexivity.
Defined.

(** ** The mass excess of an added molecule *)

Lemma first_row_cond (df : DataFrame) (el : string) (x : Z) (r : row) :
  first_row df el x = Some r → col_EL r = el ∧ col_A r = x.
Proof.
  rewrite first_row_find. intros [_ H]%List.find_some.
  unfold el_a_cond in H. apply andb_true_iff in H as [Hel HA].
  apply String.eqb_eq in Hel. apply Z.eqb_eq in HA. auto.
Qed.

(** The rows of resolved constituents carry the mass numbers of the
    expression, when there is one mass number per symbol. *)
Lemma resolved_mass_numbers (df : DataFrame) (label : list string) (a : list Z)
    (rows : list row) :
  resolved df label a rows → length a = length label →
  Forall2 (λ x r, col_A r = x) a rows.
Proof.
  intros [_ Hrows] Hlen. revert a rows Hrows Hlen.
  induction label as [|l label IH]; intros [|x a] rows Hrows Hlen;
    try discriminate; cbn [zip_with] in Hrows.
  - inversion Hrows. constructor.
  - inversion Hrows as [|lx r ? rows' Hr Hrows']; subst.
    constructor; [exact (proj2 (first_row_cond _ _ _ _ Hr))|].
    apply IH; [exact Hrows'|]. cbn in Hlen. lia.
Qed.

(** The mass excess is additive over the constituents. *)
Lemma mass_excess_weighted_sum (m a : list Z) (rows : list row) :
  Forall2 (λ x r, col_A r = x) a rows →
  ((Rsum (zip_with (λ mul r, IZR mul * col_ame_tot r) m rows) * 1e-6
    - IZR (py_sum (zip_with Z.mul a m))) * scale
   = Rsum (zip_with
             (λ mul r, IZR mul * ((col_ame_tot r * 1e-6 - IZR (col_A r)) * scale))
             m rows))%R.
Proof.
  intros H. revert m. induction H as [|x r a rows Hx _ IH]; intros [|mul m];
    cbn [zip_with Rsum foldr py_sum]; try lra.
  fold (py_sum (zip_with Z.mul a m)).
  fold (Rsum (zip_with (λ mul r, IZR mul * col_ame_tot r) m rows))%R.
  fold (Rsum (zip_with
                (λ mul r, IZR mul * ((col_ame_tot r * 1e-6 - IZR (col_A r)) * scale))
                m rows))%R.
  rewrite <- IH, plus_IZR, mult_IZR, Hx. lra.
Qed.

(** X21. For an expression with one mass number per symbol whose
    constituents all have a row, the mass excess of the row that
    [add_entry_table] adds is the sum over the constituents of
    multiplicity times the mass excess computed by [mass_excess] from the
    mass and the mass number of the constituent's row. *)
Theorem X21_added_mass_excess_is_additive (df df' : DataFrame) (expr : string)
    (out : list string) (label : list string) (m a z : list Z) (rows : list row) :
  evaluate_expr expr false = Ok (label, m, a, z) →
  resolved df label a rows →
  length a = length label →
  add_entry_table df expr = (out, Ok df') →
  ∃ r, df' = (df ++ [r])%list ∧
       col_ME r
       = Rsum (zip_with
                 (λ mul ri,
                    IZR mul * (mass_excess (col_ame_tot ri) (col_amunc ri)
                                           (IZR (col_A ri))).1)%R
                 m rows).
Proof.
  intros Heval Hres Hlen
    (sym & mass & unc & ta & tz & tn & q & Hget & ->)%add_entry_table_inv.
  rewrite (get_ame_mass_resolved df _ _ _ _ _ _ Heval Hres) in Hget.
  rewrite foldl_accumulate in Hget. cbn [fst snd] in Hget.
  injection Hget as _ _ <- _ <- _ _ _.
  eexists. split; [reflexivity|]. cbn [col_ME mass_excess fst].
  rewrite Rplus_0_l.
  apply mass_excess_weighted_sum.
  exact (resolved_mass_numbers _ _ _ _ Hres Hlen).
Qed.

Lemma X21_added_mass_excess_is_additive_witness :
  ∃ df',
    add_entry_table small_table "2H1:1O16" = ([], Ok df') ∧
    ∃ r, df' = (small_table ++ [r])%list ∧
         col_ME r
         = Rsum (zip_with
                   (λ mul ri,
                      IZR mul * (mass_excess (col_ame_tot ri) (col_amunc ri)
                                             (IZR (col_A ri))).1)%R
                   [2; 1] [row_H1; row_O16]).
Proof.
  eexists. split; [vm_compute; reflexivity|].
  apply (X21_added_mass_excess_is_additive small_table _ "2H1:1O16" []
           ["H"; "O"] [2; 1] [1; 16] [1; 8] [row_H1; row_O16]).
  - vm_compute. reflexivity.
  - split; [vm_compute; lia|]. repeat constructor.
  - reflexivity.
  - vm_compute. reflexivity.
Defined.
